(** * spl_meter: octave-band sound level meter

    A shallow embedding of [spl_meter.py]: the [Noise] spectral estimator,
    the A-weighting of the band amplitudes, the two scale mappings (linear
    and log2) and the proximity-driven display mode toggle of the main loop.

    Number model.
    - The octave-band limits [round(b*lower_multiplier)] are computed from
      constants only; they are evaluated in IEEE binary64, as CPython does,
      with Rocq's primitive floats.
    - The band weighter is given twice: on binary64 values ([weigh64]),
      where its exact outputs are stated, and on reals ([weigh]), where its
      analytic properties are.
    - Other signal-dependent quantities (samples, amplitudes, bar widths) are
      real numbers: binary64 rounding error, infinities and nan are not
      modelled.
      Where numpy would produce nan (mean of an empty slice) the model stops
      with [NotANumber].
    - Clock readings ([time.time()]) are exact rationals. *)

From Stdlib Require Import Uint63 Floats.
From Stdlib Require Import String ZArith QArith Reals Lra Lia Bool List.
Import ListNotations.

Set Warnings "-inexact-float,-abstract-large-number".

(** ** The Python run time the program relies on *)

(** Exceptions that the modelled fragment can raise.  [NotANumber] is not a
    Python exception: it marks a float nan, which the reals cannot hold. *)
Inductive exn : Set :=
| ValueError
| IndexError
| OverflowError
| ZeroDivisionError
| NotANumber.

Inductive result (A : Type) : Type :=
| Ok (a : A)
| Raise (e : exn).
Arguments Ok {A} a.
Arguments Raise {A} e.

Definition bind {A B : Type} (c : result A) (k : A -> result B) : result B :=
  match c with
  | Ok a => k a
  | Raise e => Raise e
  end.

(** A list comprehension whose element expression may raise: elements are
    evaluated left to right and the first exception aborts. *)
Fixpoint comprehension {A B : Type} (f : A -> result B) (l : list A)
  : result (list B) :=
  match l with
  | [] => Ok []
  | a :: l' =>
      bind (f a) (fun b =>
      bind (comprehension f l') (fun bs => Ok (b :: bs)))
  end.

Declare Scope py_scope.
Notation "x <- c ;; k" := (bind c (fun x => k))
  (at level 61, c at next level, right associativity) : py_scope.
Open Scope py_scope.

Module Py.

(** [l[i]] for a non-negative index. *)
Definition getitem {A : Type} (l : list A) (i : nat) : result A :=
  match nth_error l i with
  | Some a => Ok a
  | None => Raise IndexError
  end.

(** [l.insert(i, v)] for a non-negative index: an index past the end
    appends. *)
Definition insert {A : Type} (l : list A) (i : nat) (v : A) : list A :=
  firstn i l ++ v :: skipn i l.

(** Bound of a slice [l[start:stop]]: negative bounds count from the end,
    and every bound is clipped to [0, len]. *)
Definition slice_bound (len i : Z) : Z :=
  if (i <? 0)%Z then Z.max 0 (i + len) else Z.min i len.

Definition slice {A : Type} (l : list A) (start stop : Z) : list A :=
  let len := Z.of_nat (length l) in
  let s := slice_bound len start in
  let e := slice_bound len stop in
  firstn (Z.to_nat (e - s)) (skipn (Z.to_nat s) l).

(** *** binary64 *)

(** [int -> float] conversion of the left operand of [int * float]. *)
Definition float_of_int (z : Z) : float :=
  if (z <? 0)%Z then PrimFloat.opp (PrimFloat.of_uint63 (Uint63.of_Z (- z)))
  else PrimFloat.of_uint63 (Uint63.of_Z z).

(** Nearest integer to [m * 2^e], ties to the even one. *)
Definition nearest_even (m : positive) (e : Z) : Z :=
  if (0 <=? e)%Z then (Zpos m * 2 ^ e)%Z
  else
    let d := (2 ^ (- e))%Z in
    let q := (Zpos m / d)%Z in
    let r := (Zpos m mod d)%Z in
    match (2 * r ?= d)%Z with
    | Lt => q
    | Gt => (q + 1)%Z
    | Eq => if Z.even q then q else (q + 1)%Z
    end.

(** [round(x)] of a float, one argument: an [int], ties to even. *)
Definition round_float (x : float) : result Z :=
  match Prim2SF x with
  | S754_zero _ => Ok 0%Z
  | S754_finite s m e =>
      Ok (if s then (- nearest_even m e)%Z else nearest_even m e)
  | S754_infinity _ => Raise OverflowError
  | S754_nan => Raise ValueError
  end.

(** *** real-valued floats *)

Local Open Scope R_scope.

(** Nearest integer to a real, ties to the even one. *)
Definition round_half_even (x : R) : Z :=
  let f := Int_part x in
  let r := x - IZR f in
  if Rlt_dec r (1 / 2) then f
  else if Rlt_dec (1 / 2) r then (f + 1)%Z
  else if Z.even f then f else (f + 1)%Z.

(** [round(x, ndigits)] for [ndigits >= 0]. *)
Definition round_ndigits (x : R) (ndigits : nat) : R :=
  IZR (round_half_even (x * 10 ^ ndigits)) / 10 ^ ndigits.

(** [math.log(x, base)]: the quotient of two natural logarithms, each of
    which raises [ValueError] outside its domain. *)
Definition math_log (x base : R) : result R :=
  if Rle_dec x 0 then Raise ValueError
  else if Rle_dec base 0 then Raise ValueError
  else if Req_dec_T (ln base) 0 then Raise ZeroDivisionError
  else Ok (ln x / ln base).

(** [max(a, b)]: the first argument unless the second is greater. *)
Definition max (a b : R) : R := if Rlt_dec a b then b else a.

End Py.

(** ** class Noise *)

Module Noise.

Local Open Scope R_scope.

Record t : Set := { sample_rate : nat; duration : Q }.

(** [Noise()]: the defaults of [__init__]. *)
Definition default : t := {| sample_rate := 16000; duration := (1 # 2)%Q |}.

Definition rsum (l : list R) : R := fold_right Rplus 0 l.

(** The input of [rfft(a, n)]: cropped to [n] points, or padded with zeros. *)
Definition resize (n : nat) (a : list R) : list R :=
  firstn n a ++ repeat 0 (n - length a).

(** Angle of the term [m] of frequency bin [k] in an [n]-point transform. *)
Definition angle (n k m : nat) : R := 2 * PI * INR k * INR m / INR n.

(** [numpy.fft.rfft(a, n)]: bins [0 .. n/2] of the discrete Fourier
    transform, each as (real part, imaginary part). *)
Definition rfft (a : list R) (n : nat) : list (R * R) :=
  let terms := combine (seq 0 n) (resize n a) in
  map (fun k =>
         (rsum (map (fun '(m, am) => am * cos (angle n k m)) terms),
          - rsum (map (fun '(m, am) => am * sin (angle n k m)) terms)))
      (seq 0 (n / 2 + 1)).

(** [numpy.abs] of a complex number and [numpy.square]. *)
Definition np_abs (c : R * R) : R := sqrt (fst c * fst c + snd c * snd c).
Definition np_square (x : R) : R := x * x.

(** [numpy.mean]: nan on an empty array. *)
Definition np_mean (l : list R) : result R :=
  match l with
  | [] => Raise NotANumber
  | _ => Ok (rsum l / INR (length l))
  end.

(** What the estimator returns: the list of amplitudes, unless it stops. *)
Definition amplitudes : Type := result (list R).

(** The [for r in ranges] loop, appending to [result]. *)
Fixpoint amplitudes_loop (magnitude : list R) (ranges : list (Z * Z))
  (result : list R) : amplitudes :=
  match ranges with
  | [] => Ok result
  | (start, stop) :: ranges' =>
      m <- np_mean (Py.slice magnitude start stop) ;;
      amplitudes_loop magnitude ranges' (result ++ [sqrt m])
  end.

(** [get_amplitudes_at_frequency_ranges]; [recording] is column 0 of what
    [self._record()] returned. *)
Definition get_amplitudes_at_frequency_ranges (self : t) (recording : list R)
  (ranges : list (Z * Z)) : amplitudes :=
  let magnitude :=
    map (fun c => np_square (np_abs c)) (rfft recording (sample_rate self)) in
  amplitudes_loop magnitude ranges [].

End Noise.

Definition noise : Noise.t := Noise.default.

(** ** Module-level constants *)

(** The display driver: only its geometry is read. *)
Record ST7735 : Set := { width : Z; height : Z }.

Definition lower_multiplier : float := 0.707%float.
Definition upper_multiplier : float := 1.412%float.

Definition max_spl : Z := 450.
Definition log2_max_spl : R := (ln (IZR max_spl) / ln 2)%R.

Definition l_margin : Z := 29.

Definition delay : Q := 1 # 2.

Definition bands : list Z := [8000; 4000; 2000; 1000; 500; 250; 125; 63]%Z.
Definition no_of_measurements : nat := length bands.
Definition a_weightings : list R :=
  [1.2; 1.6; 1.6; 1.0; 0.5; 0.1; 0.02; 0.003]%R.

(** ** The main loop *)

(** The variables the loop carries from one iteration to the next.
    [print_values] is constantly [False], so [count] never changes and is
    left out. *)
Record state : Set := {
  display_type : string;
  last_page : Q;
  aww_go_on : bool
}.

Definition initial : state :=
  {| display_type := "n"; last_page := 0; aww_go_on := true |}.

(** What one iteration reads from the outside: the proximity sensor, the
    clock (once in the test, once more when the tap is accepted) and the
    recorded block. *)
Record input : Type := {
  proximity : Z;
  now_test : Q;
  now_set : Q;
  recording : list R
}.

(** What [disp.display(img)] shows. *)
Inductive screen : Type :=
| Chart (x_label : string) (bar_fill : Z * Z * Z) (bar_values : list R)
| Oops.

Definition Qgt_bool (x y : Q) : bool := negb (Qle_bool x y).

(** The [if display_type == 'n' ... elif display_type == 'l'] of the tap. *)
Definition toggle (d : string) : string :=
  if (d =? "n")%string then "l"
  else if (d =? "l")%string then "n"
  else d.

(** Lines 160-168: the proximity tap. *)
Definition mode_controller (s : state) (prox : Z) (t_test t_set : Q) : state :=
  if (1500 <? prox)%Z && Qgt_bool (t_test - last_page s) delay
  then {| display_type := toggle (display_type s);
          last_page := t_set;
          aww_go_on := aww_go_on s |}
  else s.

(** The octave-band limits handed to the estimator, in binary64. *)
Definition band_range (b : Z) : result (Z * Z) :=
  lo <- Py.round_float (PrimFloat.mul (Py.float_of_int b) lower_multiplier) ;;
  hi <- Py.round_float (PrimFloat.mul (Py.float_of_int b) upper_multiplier) ;;
  Ok (lo, hi).

Definition ranges : result (list (Z * Z)) := comprehension band_range bands.

(** Lines 182-185: the [for b in range(no_of_measurements)] loop. *)
Fixpoint weighted_loop (bs : list nat) (amps weightings weighted_amps : list R)
  : result (list R) :=
  match bs with
  | [] => Ok weighted_amps
  | b :: bs' =>
      a <- Py.getitem amps b ;;
      w <- Py.getitem weightings b ;;
      weighted_loop bs' amps weightings
        (Py.insert weighted_amps b (Py.round_ndigits (2 * (a * w)) 2))
  end.

Definition weigh (amps weightings : list R) (n : nat) : result (list R) :=
  weighted_loop (seq 0 n) amps weightings [].

Section Display.

Variable disp : ST7735.

Local Open Scope R_scope.

(** Line 193: one bar of the log2 chart. *)
Definition bar_value_log2 (s : R) : result R :=
  l <- Py.math_log s 2 ;;
  Ok (Py.round_ndigits
        (IZR (width disp - l_margin)
         * (Py.max 0 l * (100 / log2_max_spl) / 100)) 2).

(** Line 197: one bar of the linear chart. *)
Definition bar_value_linear (s : R) : R :=
  Py.round_ndigits (IZR (width disp - l_margin) * (s / IZR max_spl)) 2.

(** Lines 192-203: the chart of the active display type. *)
Definition chart (s : state) (weighted_amps : list R) : result (state * screen) :=
  if (display_type s =? "l")%string then
    bar_values <- comprehension bar_value_log2 weighted_amps ;;
    Ok (s, Chart "Log(2) Ampilitude RMS(A)" (251, 164, 9)%Z bar_values)
  else if (display_type s =? "n")%string then
    Ok (s, Chart "Ampilitude RMS(A)" (58, 68, 238)%Z
             (map bar_value_linear weighted_amps))
  else
    Ok ({| display_type := display_type s;
           last_page := last_page s;
           aww_go_on := false |}, Oops).

(** One iteration of [while aww_go_on == True]. *)
Definition loop_body (s : state) (i : input) : result (state * screen) :=
  let s1 := mode_controller s (proximity i) (now_test i) (now_set i) in
  rs <- ranges ;;
  amps <- Noise.get_amplitudes_at_frequency_ranges noise (recording i) rs ;;
  weighted_amps <- weigh amps a_weightings no_of_measurements ;;
  chart s1 weighted_amps.

(** The loop over the blocks that arrive before the interrupt: the final
    variables and the screens shown, or the exception that ended it. *)
Fixpoint main_loop (s : state) (inputs : list input)
  : result (state * list screen) :=
  match inputs with
  | [] => Ok (s, [])
  | i :: inputs' =>
      if aww_go_on s then
        r <- loop_body s i ;;
        r' <- main_loop (fst r) inputs' ;;
        Ok (fst r', snd r :: snd r')
      else Ok (s, [])
  end.

(** States in which an iteration of the loop can start. *)
Inductive reachable : state -> Prop :=
| reachable_initial : reachable initial
| reachable_step s i s' scr :
    reachable s -> aww_go_on s = true ->
    loop_body s i = Ok (s', scr) -> reachable s'.

End Display.

(** ** Derived notions used in the statements *)

(** The mode controller alone, run over a trace of sensor readings
    (proximity, clock at the test, clock at the assignment). *)
Definition run_taps (s : state) (trace : list (Z * Q * Q)) : state :=
  fold_left (fun st '(prox, t_test, t_set) => mode_controller st prox t_test t_set)
            trace s.

(** The log2 pixel width in the words of the specification:
    maxWidthPx * (max(0, log2(amplitude)) / log2(maxSpl)). *)
Definition spec_log2_pixel_width (maxWidthPx amplitude maxSpl : R) : R :=
  (maxWidthPx * (Rmax 0 (ln amplitude / ln 2) / (ln maxSpl / ln 2)))%R.

(** A silent block. *)
Definition all_zero (l : list R) : Prop := Forall (fun x => x = 0%R) l.

(** The power spectrum of the estimator. *)
Definition magnitude_of (self : Noise.t) (recording : list R) : list R :=
  map (fun c => Noise.np_square (Noise.np_abs c))
      (Noise.rfft recording (Noise.sample_rate self)).

(** A slice whose clipped bounds are in order is not empty. *)
Definition nonempty_span (len : Z) (r : Z * Z) : bool :=
  (Py.slice_bound len (fst r) <? Py.slice_bound len (snd r))%Z.

(** The test of line 163 as a proposition: the reading is above the
    threshold and more than [delay] has passed since [last_page]. *)
Definition accepts (s : state) (prox : Z) (t_test : Q) : Prop :=
  (1500 < prox)%Z /\ (delay < t_test - last_page s)%Q.

(** A proximity tap in the words of the specification: the reading exceeds
    the threshold and at least debounceSeconds have elapsed since the last
    accepted transition. *)
Definition spec_tap_recognized (s : state) (prox : Z) (now : Q) : Prop :=
  (1500 < prox)%Z /\ (delay <= now - last_page s)%Q.

(** A reading of a trace that is at or below the proximity threshold. *)
Definition below_threshold (r : Z * Q * Q) : Prop := (fst (fst r) <= 1500)%Z.

(** A reading of a trace taken no later than [delay] after time [t0]. *)
Definition within_window (t0 : Q) (r : Z * Q * Q) : Prop :=
  (snd (fst r) - t0 <= delay)%Q.

(** A reading of a trace that the controller in state [s] does not accept. *)
Definition ignored (s : state) (r : Z * Q * Q) : Prop :=
  ~ accepts s (fst (fst r)) (snd (fst r)).

(** The loop variables between iterations, as the program intends them. *)
Definition well_formed (s : state) : Prop :=
  (display_type s = "n"%string \/ display_type s = "l"%string)
  /\ aww_go_on s = true.

(** A tap on a silent room: the sensor is covered at a clock reading of
    1.7e9 s while the microphone delivers 8000 zero samples. *)
Definition silent_tap : input :=
  {| proximity := 2000;
     now_test := 1700000000;
     now_set := 1700000000;
     recording := repeat 0%R 8000 |}.

(** The 160x80 panel as the program sets it up (rotation 270). *)
Definition panel : ST7735 := {| width := 160; height := 80 |}.

(** ** The renderer's layout *)

Definition t_margin : Z := 10.
Definition gap : Z := 1.

(** Line 188: the true division is a binary64 quotient, [round] makes it an
    [int] again. *)
Definition bar_height (disp : ST7735) : result Z :=
  Py.round_float
    (PrimFloat.div
       (Py.float_of_int (height disp - Z.of_nat no_of_measurements + 1))
       (Py.float_of_int (Z.of_nat no_of_measurements + 1))).

(** Lines 216-219: the corners handed to [draw.rectangle] for bar [i]. *)
Record box : Type := { top_x : Z; top_y : Z; bot_x : R; bot_y : Z }.

Definition bar_box (bar_height i : Z) (bar_value : R) : box :=
  {| top_x := l_margin;
     top_y := (i * bar_height) + (gap + 1) + t_margin;
     bot_x := (IZR l_margin + bar_value)%R;
     bot_y := ((i * bar_height) + (bar_height + t_margin)) - gap |}.

(** ** Further notions used in the statements *)

(** The amplitude the estimator reports for one range: the root of the mean
    power over the slice. *)
Definition band_amplitude (magnitude : list R) (r : Z * Z) : R :=
  let span := Py.slice magnitude (fst r) (snd r) in
  sqrt (Noise.rsum span / INR (length span)).

(** The sensor and clock readings of an iteration, as [run_taps] takes
    them. *)
Definition readings (i : input) : Z * Q * Q :=
  (proximity i, now_test i, now_set i).

(** The display heights the layout is checked for. *)
Definition heights : list Z := map Z.of_nat (seq 0 4097).

(** [bh] is a nearest integer to (h - 7) / 9. *)
Definition nearest_ninth (h bh : Z) : bool :=
  ((9 * bh - 4 <=? h - 7) && (h - 7 <=? 9 * bh + 4))%Z.

Definition bar_height_checked (h : Z) : bool :=
  match bar_height {| width := 160; height := h |} with
  | Ok bh => nearest_ninth h bh
  | Raise _ => false
  end.

(** ** The band weighter in binary64 *)

(** [numpy.rint]: the nearest integral float, ties to even, the sign kept.
    A finite float with a non-negative exponent is integral already. *)
Definition rint (x : float) : float :=
  match Prim2SF x with
  | S754_finite s m e =>
      if (0 <=? e)%Z then x
      else
        let r := Py.float_of_int (Py.nearest_even m e) in
        if s then PrimFloat.opp r else r
  | _ => x
  end.

(** [round] of a [numpy.float64] with [decimals >= 0]: numpy multiplies by
    [10**decimals], rounds to the nearest integral float and divides. *)
Definition np_round (x : float) (decimals : nat) : float :=
  let f := Py.float_of_int (10 ^ Z.of_nat decimals) in
  PrimFloat.div (rint (PrimFloat.mul x f)) f.

(** Line 179 as the floats the program holds. *)
Definition a_weightings64 : list float :=
  [1.2; 1.6; 1.6; 1.0; 0.5; 0.1; 0.02; 0.003]%float.

(** The expression of line 185 on binary64 operands. *)
Definition weighted64 (a w : float) : float :=
  np_round (PrimFloat.mul 2%float (PrimFloat.mul a w)) 2.

(** The loop of lines 184-185 over any element type, [weighted] being the
    value inserted for one band. *)
Fixpoint weighted_loop_on {A : Type} (weighted : A -> A -> A) (bs : list nat)
  (amps weightings weighted_amps : list A) : result (list A) :=
  match bs with
  | [] => Ok weighted_amps
  | b :: bs' =>
      a <- Py.getitem amps b ;;
      w <- Py.getitem weightings b ;;
      weighted_loop_on weighted bs' amps weightings
        (Py.insert weighted_amps b (weighted a w))
  end.

(** Lines 182-185 on binary64 amplitudes. *)
Definition weigh64 (amps weightings : list float) (n : nat)
  : result (list float) :=
  weighted_loop_on weighted64 (seq 0 n) amps weightings [].

(** * Properties *)

(** ** Rounding *)

Section Rounding.

Local Open Scope R_scope.

Lemma Int_part_bounds (x : R) : IZR (Int_part x) <= x < IZR (Int_part x) + 1.
Proof. destruct (base_Int_part x); lra. Qed.

Lemma round_half_even_near (x : R) :
  x - 1 / 2 <= IZR (Py.round_half_even x) <= x + 1 / 2.
Proof.
  unfold Py.round_half_even.
  pose proof (Int_part_bounds x) as Hb.
  destruct (Rlt_dec _ _) as [Hlo | Hlo]; [lra |].
  destruct (Rlt_dec _ _) as [Hhi | Hhi].
  - rewrite plus_IZR; lra.
  - destruct (Z.even _); [| rewrite plus_IZR]; lra.
Qed.

Lemma round_half_even_IZR (n : Z) : Py.round_half_even (IZR n) = n.
Proof.
  unfold Py.round_half_even.
  assert (Int_part (IZR n) = n) as ->.
  { symmetry; apply Int_part_spec; lra. }
  destruct (Rlt_dec _ _); [reflexivity | lra].
Qed.

Lemma round_half_even_mono (x y : R) :
  x <= y -> (Py.round_half_even x <= Py.round_half_even y)%Z.
Proof.
  intros Hxy.
  pose proof (round_half_even_near x) as Hx.
  pose proof (round_half_even_near y) as Hy.
  destruct (Z_le_gt_dec (Py.round_half_even x) (Py.round_half_even y)) as [|Hgt];
    [assumption | exfalso].
  assert (Py.round_half_even y + 1 <= Py.round_half_even x)%Z as Hz by lia.
  apply IZR_le in Hz. rewrite plus_IZR in Hz.
  assert (x = y) by lra. subst y. lia.
Qed.

Lemma pow10_2 : 10 ^ 2 = 100.
Proof. simpl; lra. Qed.

Lemma round_ndigits_2 (x : R) :
  Py.round_ndigits x 2 = IZR (Py.round_half_even (x * 100)) / 100.
Proof. unfold Py.round_ndigits; rewrite pow10_2; reflexivity. Qed.

Lemma round_ndigits_near (x : R) :
  x - 1 / 200 <= Py.round_ndigits x 2 <= x + 1 / 200.
Proof.
  rewrite round_ndigits_2.
  pose proof (round_half_even_near (x * 100)); lra.
Qed.

Lemma round_ndigits_IZR (n : Z) : Py.round_ndigits (IZR n) 2 = IZR n.
Proof.
  rewrite round_ndigits_2.
  replace (IZR n * 100) with (IZR (n * 100)) by (rewrite mult_IZR; reflexivity).
  rewrite round_half_even_IZR, mult_IZR; field.
Qed.

Lemma round_ndigits_0 : Py.round_ndigits 0 2 = 0.
Proof. exact (round_ndigits_IZR 0). Qed.

Lemma round_ndigits_mono (x y : R) :
  x <= y -> Py.round_ndigits x 2 <= Py.round_ndigits y 2.
Proof.
  intros Hxy. rewrite !round_ndigits_2.
  assert (Py.round_half_even (x * 100) <= Py.round_half_even (y * 100))%Z as Hz
    by (apply round_half_even_mono; lra).
  apply IZR_le in Hz; lra.
Qed.

(** A value strictly between two consecutive hundredths is moved by
    rounding to two digits. *)
Lemma round_ndigits_moves (x : R) (k : Z) :
  IZR k / 100 < x < IZR (k + 1) / 100 -> Py.round_ndigits x 2 <> x.
Proof.
  intros [Hlo Hhi] Heq. rewrite round_ndigits_2 in Heq.
  set (n := Py.round_half_even (x * 100)) in *.
  assert (IZR k < IZR n) as H1 by lra.
  assert (IZR n < IZR (k + 1)) as H2 by lra.
  apply lt_IZR in H1, H2. lia.
Qed.

End Rounding.

(** ** Octave-band limits *)

Lemma ranges_value :
  ranges = Ok [(5656, 11296); (2828, 5648); (1414, 2824); (707, 1412);
               (354, 706); (177, 353); (88, 176); (45, 89)]%Z.
Proof. vm_compute. reflexivity. Qed.

Lemma In_bands (c : Z) :
  In c bands ->
  (c = 8000 \/ c = 4000 \/ c = 2000 \/ c = 1000 \/
   c = 500 \/ c = 250 \/ c = 125 \/ c = 63)%Z.
Proof. unfold bands; simpl; intuition auto. Qed.

(** C8.  For every centre frequency of [bands], the binary64 evaluation of
    [(round(c*lower_multiplier), round(c*upper_multiplier))] succeeds with
    start < end, and both limits are non-decreasing in the centre
    frequency. *)
Theorem band_range_ordered (c : Z) :
  In c bands ->
  exists lo hi : Z,
    band_range c = Ok (lo, hi) /\
    (lo < hi)%Z /\
    forall c' lo' hi',
      In c' bands -> (c <= c')%Z -> band_range c' = Ok (lo', hi') ->
      (lo <= lo')%Z /\ (hi <= hi')%Z.
Proof.
  intros Hc.
  assert (exists lo hi, band_range c = Ok (lo, hi)) as (lo & hi & E).
  { apply In_bands in Hc.
    repeat (destruct Hc as [-> | Hc]); try subst c;
      vm_compute; eexists; eexists; reflexivity. }
  exists lo, hi. split; [exact E |].
  apply In_bands in Hc. split.
  - repeat (destruct Hc as [-> | Hc]); try subst c;
      vm_compute in E; injection E as <- <-; reflexivity.
  - intros c' lo' hi' Hc' Hle E'.
    apply In_bands in Hc'.
    repeat (destruct Hc as [-> | Hc]); try subst c;
      vm_compute in E; injection E as <- <-;
      repeat (destruct Hc' as [-> | Hc']); try subst c';
      try (exfalso; lia);
      vm_compute in E'; injection E' as <- <-; lia.
Qed.

Lemma band_range_ordered_63 :
  exists lo hi : Z,
    band_range 63 = Ok (lo, hi) /\
    (lo < hi)%Z /\
    forall c' lo' hi',
      In c' bands -> (63 <= c')%Z -> band_range c' = Ok (lo', hi') ->
      (lo <= lo')%Z /\ (hi <= hi')%Z.
Proof.
  apply (band_range_ordered 63).
  unfold bands; simpl; tauto.
Defined.

(** ** The spectral estimator on silence *)

Section Estimator.

Local Open Scope R_scope.

Lemma In_firstn {A : Type} (n : nat) (l : list A) (x : A) :
  In x (firstn n l) -> In x l.
Proof.
  intros H. rewrite <- (firstn_skipn n l). apply in_or_app; left; exact H.
Qed.

Lemma In_skipn {A : Type} (n : nat) (l : list A) (x : A) :
  In x (skipn n l) -> In x l.
Proof.
  intros H. rewrite <- (firstn_skipn n l). apply in_or_app; right; exact H.
Qed.

Lemma rsum_all_zero (l : list R) : all_zero l -> Noise.rsum l = 0.
Proof.
  induction 1 as [| x l Hx _ IH]; simpl; [reflexivity |].
  rewrite Hx, IH; lra.
Qed.

Lemma all_zero_repeat (n : nat) : all_zero (repeat 0 n).
Proof. apply Forall_forall; intros x Hx; apply repeat_spec in Hx; exact Hx. Qed.

Lemma all_zero_resize (n : nat) (a : list R) :
  all_zero a -> all_zero (Noise.resize n a).
Proof.
  intros Ha. unfold Noise.resize. apply Forall_app. split.
  - apply Forall_forall; intros x Hx.
    apply (proj1 (Forall_forall _ a) Ha), (In_firstn _ _ _ Hx).
  - apply all_zero_repeat.
Qed.

(** Every term of a Fourier sum over a zero block vanishes, whatever the
    twiddle factor [f]. *)
Lemma all_zero_terms (f : nat -> R) (ms : list nat) (a : list R) :
  all_zero a ->
  all_zero (map (fun '(m, am) => am * f m) (combine ms a)).
Proof.
  intros Ha; revert ms.
  induction Ha as [| x a Hx _ IH]; intros [| m ms]; simpl; try constructor.
  - subst x; lra.
  - apply IH.
Qed.

Lemma np_square_abs_zero : Noise.np_square (Noise.np_abs (0, 0)) = 0.
Proof.
  unfold Noise.np_square, Noise.np_abs; simpl.
  replace (0 * 0 + 0 * 0) with 0 by lra.
  rewrite sqrt_0; lra.
Qed.

Lemma rfft_all_zero (a : list R) (n : nat) :
  all_zero a -> Forall (fun c => c = (0, 0)) (Noise.rfft a n).
Proof.
  intros Ha. unfold Noise.rfft.
  apply Forall_forall; intros c Hc.
  apply in_map_iff in Hc as (k & <- & _).
  pose proof (all_zero_resize n a Ha) as Hr.
  rewrite (rsum_all_zero _ (all_zero_terms (fun m => cos (Noise.angle n k m)) _ _ Hr)).
  rewrite (rsum_all_zero _ (all_zero_terms (fun m => sin (Noise.angle n k m)) _ _ Hr)).
  rewrite Ropp_0; reflexivity.
Qed.

Lemma rfft_length (a : list R) (n : nat) :
  length (Noise.rfft a n) = (n / 2 + 1)%nat.
Proof. unfold Noise.rfft. rewrite length_map, length_seq. reflexivity. Qed.

Lemma magnitude_all_zero (self : Noise.t) (recording : list R) :
  all_zero recording -> all_zero (magnitude_of self recording).
Proof.
  intros Ha. unfold magnitude_of.
  apply Forall_forall; intros x Hx.
  apply in_map_iff in Hx as (c & <- & Hc).
  rewrite (proj1 (Forall_forall _ _) (rfft_all_zero _ _ Ha) c Hc).
  apply np_square_abs_zero.
Qed.

Lemma magnitude_length (recording : list R) :
  Z.of_nat (length (magnitude_of noise recording)) = 8001%Z.
Proof.
  unfold magnitude_of. rewrite length_map, rfft_length.
  vm_compute. reflexivity.
Qed.

Lemma slice_bound_range (len i : Z) :
  (0 <= len -> 0 <= Py.slice_bound len i <= len)%Z.
Proof. unfold Py.slice_bound; destruct (i <? 0)%Z eqn:E; lia. Qed.

Lemma slice_length {A : Type} (l : list A) (start stop : Z) :
  nonempty_span (Z.of_nat (length l)) (start, stop) = true ->
  (0 < length (Py.slice l start stop))%nat.
Proof.
  unfold nonempty_span, Py.slice; simpl fst; simpl snd.
  set (len := Z.of_nat (length l)).
  intros H; apply Z.ltb_lt in H.
  pose proof (slice_bound_range len start ltac:(lia)).
  pose proof (slice_bound_range len stop ltac:(lia)).
  rewrite length_firstn, length_skipn. lia.
Qed.

Lemma all_zero_slice (l : list R) (start stop : Z) :
  all_zero l -> all_zero (Py.slice l start stop).
Proof.
  intros Hl. unfold Py.slice.
  apply Forall_forall; intros x Hx.
  apply In_firstn, In_skipn in Hx.
  exact (proj1 (Forall_forall _ l) Hl x Hx).
Qed.

Lemma np_mean_all_zero (l : list R) :
  (0 < length l)%nat -> all_zero l -> Noise.np_mean l = Ok 0.
Proof.
  intros Hlen Hl. destruct l as [| x l]; [simpl in Hlen; lia |].
  unfold Noise.np_mean. rewrite (rsum_all_zero _ Hl).
  f_equal. unfold Rdiv; apply Rmult_0_l.
Qed.

Lemma amplitudes_loop_all_zero (magnitude : list R) (rs : list (Z * Z)) :
  all_zero magnitude ->
  forallb (nonempty_span (Z.of_nat (length magnitude))) rs = true ->
  forall acc,
    Noise.amplitudes_loop magnitude rs acc = Ok (acc ++ repeat 0 (length rs)).
Proof.
  intros Hm. induction rs as [| [start stop] rs IH]; intros Hne acc.
  - simpl. rewrite app_nil_r. reflexivity.
  - simpl in Hne. apply andb_prop in Hne as [H1 H2].
    cbn [Noise.amplitudes_loop].
    rewrite (np_mean_all_zero _ (slice_length _ _ _ H1)
                              (all_zero_slice _ _ _ Hm)).
    cbn [bind]. rewrite sqrt_0, (IH H2).
    rewrite <- app_assoc. reflexivity.
Qed.

Lemma get_amplitudes_magnitude
  (self : Noise.t) (recording : list R) (rs : list (Z * Z)) :
  Noise.get_amplitudes_at_frequency_ranges self recording rs
  = Noise.amplitudes_loop (magnitude_of self recording) rs [].
Proof. reflexivity. Qed.

Lemma silence_amplitudes (n : nat) (rs : list (Z * Z)) :
  ranges = Ok rs ->
  Noise.get_amplitudes_at_frequency_ranges noise (repeat 0 n) rs
  = Ok [0; 0; 0; 0; 0; 0; 0; 0].
Proof.
  rewrite ranges_value. intros [= <-].
  rewrite get_amplitudes_magnitude.
  rewrite amplitudes_loop_all_zero.
  - reflexivity.
  - apply magnitude_all_zero, all_zero_repeat.
  - rewrite magnitude_length. vm_compute. reflexivity.
Qed.

(** C7.  On an all-zero block of any length the eight band limits are
    computed and the estimator returns eight amplitudes, all zero. *)
Theorem estimate_of_silence (n : nat) :
  exists rs : list (Z * Z),
    ranges = Ok rs /\
    length rs = 8%nat /\
    Forall (fun r => (fst r < snd r)%Z) rs /\
    Noise.get_amplitudes_at_frequency_ranges noise (repeat 0 n) rs
    = Ok (repeat 0 8).
Proof.
  eexists. split; [exact ranges_value |].
  split; [reflexivity |].
  split; [repeat constructor |].
  exact (silence_amplitudes n _ ranges_value).
Qed.

End Estimator.

(** ** The band weighter *)

Section Weighter.

Local Open Scope R_scope.

Lemma getitem_nth {A : Type} (l : list A) (i : nat) (d : A) :
  (i < length l)%nat -> Py.getitem l i = Ok (nth i l d).
Proof.
  intros Hi. unfold Py.getitem.
  rewrite (nth_error_nth' l d Hi). reflexivity.
Qed.

(** Inserting at the current length appends. *)
Lemma insert_at_end {A : Type} (l : list A) (v : A) :
  Py.insert l (length l) v = l ++ [v].
Proof. unfold Py.insert. rewrite firstn_all, skipn_all. reflexivity. Qed.

(** The loop started at index [k] with [k] values already in place fills
    in the next [m] values, one per index. *)
Lemma weighted_loop_spec (amps ws : list R) (m : nat) :
  forall (k : nat) (acc : list R),
    length acc = k ->
    (k + m <= length amps)%nat -> (k + m <= length ws)%nat ->
    weighted_loop (seq k m) amps ws acc
    = Ok (acc ++ map (fun b => Py.round_ndigits (2 * (nth b amps 0 * nth b ws 0)) 2)
                     (seq k m)).
Proof.
  induction m as [| m IH]; intros k acc Hk Ha Hw.
  - simpl. rewrite app_nil_r. reflexivity.
  - cbn [seq weighted_loop map].
    rewrite (getitem_nth amps k 0) by lia.
    rewrite (getitem_nth ws k 0) by lia.
    cbn [bind]. subst k. rewrite insert_at_end.
    rewrite IH by (rewrite ?length_app; simpl; lia).
    rewrite <- app_assoc. reflexivity.
Qed.

Lemma weigh_spec (amps ws : list R) (n : nat) :
  (n <= length amps)%nat -> (n <= length ws)%nat ->
  weigh amps ws n
  = Ok (map (fun b => Py.round_ndigits (2 * (nth b amps 0 * nth b ws 0)) 2)
            (seq 0 n)).
Proof.
  intros Ha Hw. unfold weigh.
  rewrite (weighted_loop_spec amps ws n 0 []) by (simpl; lia || reflexivity).
  reflexivity.
Qed.

Lemma nth_map_seq (f : nat -> R) (n i : nat) :
  (i < n)%nat -> nth i (map f (seq 0 n)) 0 = f i.
Proof.
  intros Hi.
  rewrite (nth_indep _ 0 (f 0%nat)) by (rewrite length_map, length_seq; exact Hi).
  rewrite (map_nth f), seq_nth by exact Hi. reflexivity.
Qed.

(** The loop over any element type, started at index [k] with [k] values
    in place: it fills in one value per index. *)
Lemma weighted_loop_on_spec {A : Type} (weighted : A -> A -> A) (d : A)
  (amps ws : list A) (m : nat) :
  forall (k : nat) (acc : list A),
    length acc = k ->
    (k + m <= length amps)%nat -> (k + m <= length ws)%nat ->
    weighted_loop_on weighted (seq k m) amps ws acc
    = Ok (acc ++ map (fun b => weighted (nth b amps d) (nth b ws d)) (seq k m)).
Proof.
  induction m as [| m IH]; intros k acc Hk Ha Hw.
  - simpl. rewrite app_nil_r. reflexivity.
  - cbn [seq weighted_loop_on map].
    rewrite (getitem_nth amps k d) by lia.
    rewrite (getitem_nth ws k d) by lia.
    cbn [bind]. subst k. rewrite insert_at_end.
    rewrite IH by (rewrite ?length_app; simpl; lia).
    rewrite <- app_assoc. reflexivity.
Qed.


(** The real-valued loop is the loop over the reals with the rounded
    product as its element. *)
Lemma weighted_loop_on_reals (bs : list nat) (amps ws acc : list R) :
  weighted_loop bs amps ws acc
  = weighted_loop_on (fun a w => Py.round_ndigits (2 * (a * w)) 2)
                     bs amps ws acc.
Proof.
  revert acc. induction bs as [| b bs IH]; intros acc; [reflexivity |].
  cbn [weighted_loop weighted_loop_on].
  destruct (Py.getitem amps b); cbn [bind]; [| reflexivity].
  destruct (Py.getitem ws b); cbn [bind]; [| reflexivity].
  apply IH.
Qed.

(** The binary64 weighter on the amplitudes 0.53125 and 0.1328125, whose
    exact doubled products 1.275 and 0.425 are ties in decimal: the
    products computed with the binary64 weights 1.2 and 1.6 fall just
    below and just above them. *)
Lemma weigh64_near_ties :
  weigh64 [0.53125; 0.1328125; 1; 2.5; 4; 10; 50; 1000]%float
          a_weightings64 no_of_measurements
  = Ok [1.27; 0.43; 3.2; 5; 4; 2; 2; 6]%float.
Proof. vm_compute. reflexivity. Qed.





End Weighter.

(** ** The scale mappings *)

Section ScaleMapper.

Local Open Scope R_scope.

Lemma ln_2_pos : 0 < ln 2.
Proof. pose proof ln_lt_2; lra. Qed.

Lemma ln_le_0 (s : R) : 0 < s -> s <= 1 -> ln s <= 0.
Proof.
  intros H0 [H1 | ->].
  - pose proof (ln_increasing s 1 H0 H1) as H. rewrite ln_1 in H. lra.
  - rewrite ln_1. lra.
Qed.

Lemma log2_max_spl_pos : 0 < log2_max_spl.
Proof.
  unfold log2_max_spl, max_spl.
  assert (0 < ln 450) as H.
  { rewrite <- ln_1. apply ln_increasing; lra. }
  pose proof ln_2_pos. apply Rdiv_lt_0_compat; assumption.
Qed.

(** The module-level [math.log(max_spl, 2)] succeeds. *)
Lemma log2_max_spl_value : Py.math_log (IZR max_spl) 2 = Ok log2_max_spl.
Proof.
  unfold Py.math_log, max_spl.
  destruct (Rle_dec 450 0); [lra |].
  destruct (Rle_dec 2 0); [lra |].
  destruct (Req_dec_T (ln 2) 0) as [E |]; [pose proof ln_2_pos; lra |].
  reflexivity.
Qed.

Lemma math_log_2_pos (s : R) : 0 < s -> Py.math_log s 2 = Ok (ln s / ln 2).
Proof.
  intros Hs. unfold Py.math_log.
  destruct (Rle_dec s 0); [lra |].
  destruct (Rle_dec 2 0); [lra |].
  destruct (Req_dec_T (ln 2) 0) as [E |]; [pose proof ln_2_pos; lra |].
  reflexivity.
Qed.

Lemma math_log_nonpos (s base : R) : s <= 0 -> Py.math_log s base = Raise ValueError.
Proof. intros Hs. unfold Py.math_log. destruct (Rle_dec s 0); [reflexivity | lra]. Qed.

Lemma max_0_Rmax (x : R) : Py.max 0 x = Rmax 0 x.
Proof.
  unfold Py.max, Rmax.
  destruct (Rlt_dec 0 x), (Rle_dec 0 x); lra.
Qed.

Variable disp : ST7735.

(** On a positive amplitude the log2 bar is the specification's width,
    rounded to two digits. *)
Lemma bar_value_log2_pos (s : R) :
  0 < s ->
  bar_value_log2 disp s
  = Ok (Py.round_ndigits
          (spec_log2_pixel_width (IZR (width disp - l_margin)) s (IZR max_spl)) 2).
Proof.
  intros Hs. unfold bar_value_log2.
  rewrite (math_log_2_pos s Hs). cbn [bind].
  do 2 f_equal. unfold spec_log2_pixel_width.
  rewrite max_0_Rmax. fold log2_max_spl.
  pose proof log2_max_spl_pos. field. lra.
Qed.

(** Amplitudes in (0, 1] give a bar of width 0. *)
Lemma bar_value_log2_small (s : R) :
  0 < s -> s <= 1 -> bar_value_log2 disp s = Ok 0.
Proof.
  intros H0 H1. rewrite (bar_value_log2_pos s H0).
  unfold spec_log2_pixel_width.
  rewrite Rmax_left.
  - unfold Rdiv at 1. rewrite Rmult_0_l, Rmult_0_r, round_ndigits_0. reflexivity.
  - pose proof (ln_le_0 s H0 H1). pose proof ln_2_pos.
    apply Rmult_le_reg_r with (ln 2); [assumption |].
    unfold Rdiv. rewrite Rmult_assoc, Rinv_l by lra. lra.
Qed.

(** Amplitudes that are zero or negative make [math.log] raise. *)
Lemma bar_value_log2_nonpos (s : R) :
  s <= 0 -> bar_value_log2 disp s = Raise ValueError.
Proof.
  intros Hs. unfold bar_value_log2.
  rewrite (math_log_nonpos s 2 Hs). reflexivity.
Qed.

Lemma bar_value_log2_max_spl :
  bar_value_log2 disp (IZR max_spl) = Ok (IZR (width disp - l_margin)).
Proof.
  rewrite bar_value_log2_pos by (unfold max_spl; lra).
  unfold spec_log2_pixel_width. fold log2_max_spl.
  pose proof log2_max_spl_pos as HL.
  rewrite Rmax_right by lra.
  unfold Rdiv. rewrite Rinv_r by lra.
  rewrite Rmult_1_r, round_ndigits_IZR. reflexivity.
Qed.

(** C5.  On a display wider than the label margin the linear bar width is
    non-decreasing in the amplitude, is the full width at [max_spl], and
    exceeds every bound for some amplitude above [max_spl]. *)
Theorem bar_value_linear_shape :
  (l_margin < width disp)%Z ->
  (forall a1 a2 : R,
      a1 <= a2 -> bar_value_linear disp a1 <= bar_value_linear disp a2) /\
  bar_value_linear disp (IZR max_spl) = IZR (width disp - l_margin) /\
  (forall bound : R,
      exists a : R, IZR max_spl < a /\ bound < bar_value_linear disp a).
Proof.
  intros HW. unfold bar_value_linear.
  assert (1 <= IZR (width disp - l_margin)) as HW1 by (apply IZR_le; lia).
  set (W := IZR (width disp - l_margin)) in *.
  unfold max_spl. repeat split.
  - intros a1 a2 Ha. apply round_ndigits_mono.
    apply Rmult_le_compat_l; [lra |].
    unfold Rdiv; apply Rmult_le_compat_r; lra.
  - replace (W * (450 / 450)) with W by field.
    apply round_ndigits_IZR.
  - intros bound. exists (450 * (Rmax bound 0 + 2)).
    pose proof (Rmax_l bound 0). pose proof (Rmax_r bound 0).
    split; [lra |].
    pose proof (round_ndigits_near (W * (450 * (Rmax bound 0 + 2) / 450))) as Hr.
    replace (W * (450 * (Rmax bound 0 + 2) / 450))
      with (W * (Rmax bound 0 + 2)) in * by field.
    nra.
Qed.

End ScaleMapper.

Lemma bar_value_linear_shape_panel :
  (forall a1 a2 : R,
      (a1 <= a2)%R -> (bar_value_linear panel a1 <= bar_value_linear panel a2)%R) /\
  bar_value_linear panel (IZR max_spl) = IZR (width panel - l_margin) /\
  (forall bound : R,
      exists a : R, (IZR max_spl < a)%R /\ (bound < bar_value_linear panel a)%R).
Proof.
  apply (bar_value_linear_shape panel). reflexivity.
Defined.

(** *** The log2 mapping *)

Section Log2Width.

Local Open Scope R_scope.

(** Comparing integer powers compares multiples of logarithms. *)
Lemma ln_multiples_lt (a b p q : Z) :
  (0 < a)%Z -> (0 < b)%Z -> (0 <= p)%Z -> (0 <= q)%Z ->
  (a ^ p < b ^ q)%Z ->
  IZR p * ln (IZR a) < IZR q * ln (IZR b).
Proof.
  intros Ha Hb Hp Hq Hlt.
  rewrite <- (Z2Nat.id p Hp), <- (Z2Nat.id q Hq) in *.
  rewrite <- !INR_IZR_INZ.
  apply IZR_lt in Ha, Hb.
  rewrite <- !ln_pow by assumption.
  apply ln_increasing; [apply pow_lt; assumption |].
  rewrite !pow_IZR. apply IZR_lt. exact Hlt.
Qed.

(** The specification's width of amplitude 2 on the panel lies strictly
    between 14.86 and 14.87. *)
Lemma spec_width_of_2 :
  IZR 1486 / 100
  < spec_log2_pixel_width (IZR (width panel - l_margin)) 2 (IZR max_spl)
  < IZR (1486 + 1) / 100.
Proof.
  unfold spec_log2_pixel_width.
  change (width panel - l_margin)%Z with 131%Z.
  change (1486 + 1)%Z with 1487%Z. unfold max_spl.
  pose proof ln_2_pos as Hu.
  assert (0 < ln 450) as Hv
    by (rewrite <- ln_1; apply ln_increasing; lra).
  assert (1486 * ln 450 < 13100 * ln 2) as Hlo
    by (apply (ln_multiples_lt 450 2 1486 13100);
        [lia | lia | lia | lia | vm_compute; reflexivity]).
  assert (13100 * ln 2 < 1487 * ln 450) as Hhi
    by (apply (ln_multiples_lt 2 450 13100 1487);
        [lia | lia | lia | lia | vm_compute; reflexivity]).
  replace (ln 2 / ln 2) with 1 by (field; lra).
  rewrite Rmax_right by lra.
  replace (131 * (1 / (ln 450 / ln 2))) with (131 * ln 2 / ln 450)
    by (field; lra).
  split.
  - apply Rmult_lt_reg_r with (100 * ln 450); [lra |].
    replace (131 * ln 2 / ln 450 * (100 * ln 450)) with (13100 * ln 2)
      by (field; lra).
    replace (1486 / 100 * (100 * ln 450)) with (1486 * ln 450) by field.
    exact Hlo.
  - apply Rmult_lt_reg_r with (100 * ln 450); [lra |].
    replace (131 * ln 2 / ln 450 * (100 * ln 450)) with (13100 * ln 2)
      by (field; lra).
    replace (1487 / 100 * (100 * ln 450)) with (1487 * ln 450) by field.
    exact Hhi.
Qed.

(** C4, as stated, fails: on the panel the bar of amplitude 2 is 14.86,
    not the unrounded 131 / log2(450). *)
Lemma bar_value_log2_is_rounded :
  bar_value_log2 panel 2
  <> Ok (spec_log2_pixel_width (IZR (width panel - l_margin)) 2 (IZR max_spl)).
Proof.
  rewrite bar_value_log2_pos by lra.
  intros [= H]. revert H.
  exact (round_ndigits_moves _ 1486 spec_width_of_2).
Qed.

(** C4, amended.  For every positive amplitude the log2 bar is
    maxWidthPx * (max(0, log2(amplitude)) / log2(maxSpl)) rounded to two
    decimal places, and at [max_spl] it is exactly the full width. *)
Theorem bar_value_log2_formula (disp : ST7735) (s : R) :
  0 < s ->
  bar_value_log2 disp s
  = Ok (Py.round_ndigits
          (spec_log2_pixel_width (IZR (width disp - l_margin)) s (IZR max_spl)) 2)
  /\ bar_value_log2 disp (IZR max_spl) = Ok (IZR (width disp - l_margin)).
Proof.
  intros Hs. split.
  - exact (bar_value_log2_pos disp s Hs).
  - exact (bar_value_log2_max_spl disp).
Qed.

Lemma bar_value_log2_formula_panel_2 :
  bar_value_log2 panel 2
  = Ok (Py.round_ndigits
          (spec_log2_pixel_width (IZR (width panel - l_margin)) 2 (IZR max_spl)) 2)
  /\ bar_value_log2 panel (IZR max_spl) = Ok (IZR (width panel - l_margin)).
Proof.
  apply (bar_value_log2_formula panel 2). lra.
Defined.

End Log2Width.

(** *** The log2 chart of a silent block *)

Section SilentTap.

Local Open Scope R_scope.

Lemma silent_tap_switches_to_log2 :
  mode_controller initial (proximity silent_tap)
                  (now_test silent_tap) (now_set silent_tap)
  = {| display_type := "l"; last_page := 1700000000; aww_go_on := true |}.
Proof. reflexivity. Qed.

Lemma silent_weighted_amps :
  weigh [0; 0; 0; 0; 0; 0; 0; 0] a_weightings no_of_measurements
  = Ok [0; 0; 0; 0; 0; 0; 0; 0].
Proof.
  change no_of_measurements with 8%nat.
  rewrite weigh_spec by (unfold a_weightings; simpl; lia).
  cbn [seq map nth a_weightings].
  assert (forall w, Py.round_ndigits (2 * (0 * w)) 2 = 0) as Hz.
  { intros w. replace (2 * (0 * w)) with 0 by lra. exact round_ndigits_0. }
  rewrite !Hz. reflexivity.
Qed.

(** In the linear chart the same silent block is drawn as eight empty
    bars and the loop goes on. *)
Lemma linear_chart_of_silence :
  loop_body panel initial
            {| proximity := 0; now_test := 0; now_set := 0;
               recording := repeat 0 8000 |}
  = Ok (initial,
        Chart "Ampilitude RMS(A)" (58, 68, 238)%Z [0; 0; 0; 0; 0; 0; 0; 0]).
Proof.
  unfold loop_body. cbn [proximity now_test now_set recording].
  change (mode_controller initial 0 0 0) with initial.
  rewrite ranges_value. cbn [bind].
  rewrite (silence_amplitudes 8000 _ ranges_value). cbn [bind].
  rewrite silent_weighted_amps. cbn [bind].
  unfold chart. cbn [initial display_type].
  change (("n" =? "l")%string) with false.
  change (("n" =? "n")%string) with true. cbv iota.
  cbn [map]. unfold bar_value_linear, max_spl.
  replace (IZR (width panel - l_margin) * (0 / 450)) with 0
    by (unfold Rdiv; ring).
  rewrite round_ndigits_0. reflexivity.
Qed.

(** C1 fails on the code.  From the initial state, one tap switches the
    meter to the log2 chart; the block recorded in the same iteration is
    silent, every weighted amplitude is 0.0, and [math.log(0.0, 2)] ends the
    loop with [ValueError] instead of a bar of width 0. *)
Theorem log2_chart_of_silence_raises :
  main_loop panel initial [silent_tap] = Raise ValueError.
Proof.
  cbn [main_loop initial aww_go_on]. unfold loop_body.
  rewrite silent_tap_switches_to_log2.
  rewrite ranges_value. cbn [bind].
  change (recording silent_tap) with (repeat 0 8000).
  rewrite (silence_amplitudes 8000 _ ranges_value). cbn [bind].
  rewrite silent_weighted_amps. cbn [bind].
  unfold chart. cbn [display_type].
  change (("l" =? "l")%string) with true. cbv iota.
  cbn [comprehension].
  rewrite (bar_value_log2_nonpos panel 0) by lra.
  reflexivity.
Qed.

End SilentTap.

(** ** The mode controller *)

Section ModeController.

Local Open Scope Q_scope.

Lemma Qgt_bool_iff (x y : Q) : Qgt_bool x y = true <-> y < x.
Proof.
  unfold Qgt_bool. rewrite negb_true_iff. split.
  - intros H. apply Qnot_le_lt. intros Hle.
    apply Qle_bool_iff in Hle. congruence.
  - intros H. destruct (Qle_bool x y) eqn:E; [| reflexivity].
    apply Qle_bool_iff in E. exfalso. exact (Qlt_not_le _ _ H E).
Qed.

Lemma accepts_iff (s : state) (prox : Z) (t_test : Q) :
  (1500 <? prox)%Z && Qgt_bool (t_test - last_page s) delay = true
  <-> accepts s prox t_test.
Proof.
  unfold accepts. rewrite andb_true_iff, Z.ltb_lt, Qgt_bool_iff. tauto.
Qed.

Lemma mode_controller_accepted (s : state) (prox : Z) (t_test t_set : Q) :
  accepts s prox t_test ->
  mode_controller s prox t_test t_set
  = {| display_type := toggle (display_type s);
       last_page := t_set;
       aww_go_on := aww_go_on s |}.
Proof.
  intros H. apply accepts_iff in H.
  unfold mode_controller. rewrite H. reflexivity.
Qed.

Lemma mode_controller_ignored (s : state) (prox : Z) (t_test t_set : Q) :
  ~ accepts s prox t_test -> mode_controller s prox t_test t_set = s.
Proof.
  intros H. unfold mode_controller.
  destruct ((1500 <? prox)%Z && Qgt_bool (t_test - last_page s) delay) eqn:E;
    [| reflexivity].
  apply accepts_iff in E. contradiction.
Qed.

Lemma run_taps_ignored (s : state) (trace : list (Z * Q * Q)) :
  Forall (ignored s) trace -> run_taps s trace = s.
Proof.
  induction 1 as [| [[prox t_test] t_set] trace Hr _ IH]; [reflexivity |].
  unfold run_taps in *. cbn [fold_left].
  rewrite (mode_controller_ignored s prox t_test t_set Hr). exact IH.
Qed.

Lemma below_threshold_ignored (s : state) (r : Z * Q * Q) :
  below_threshold r -> ignored s r.
Proof. unfold below_threshold, ignored, accepts. intros H [H1 _]. lia. Qed.

Lemma within_window_ignored (s : state) (r : Z * Q * Q) :
  within_window (last_page s) r -> ignored s r.
Proof.
  unfold within_window, ignored, accepts. intros H [_ H2].
  exact (Qlt_not_le _ _ H2 H).
Qed.

Lemma toggle_toggle (d : string) : toggle (toggle d) = d.
Proof.
  unfold toggle.
  destruct (d =? "n")%string eqn:En.
  - apply String.eqb_eq in En. subst d. reflexivity.
  - destruct (d =? "l")%string eqn:El.
    + apply String.eqb_eq in El. subst d. reflexivity.
    + rewrite En, El. reflexivity.
Qed.

Lemma run_taps_app (s : state) (t1 t2 : list (Z * Q * Q)) :
  run_taps s (t1 ++ t2) = run_taps (run_taps s t1) t2.
Proof. unfold run_taps. apply fold_left_app. Qed.

(** C2 fails on the code at the boundary: a reading above the threshold
    taken exactly [delay] after the last accepted transition is a tap in the
    specification's words, yet the mode does not change. *)
Lemma tap_exactly_at_delay_is_ignored :
  let s := {| display_type := "n"; last_page := 1700000000; aww_go_on := true |} in
  let now := 3400000001 # 2 in
  spec_tap_recognized s 2000 now /\
  display_type (mode_controller s 2000 now now) <> toggle (display_type s).
Proof.
  cbv zeta. split.
  - unfold spec_tap_recognized. split; [lia |].
    cbn [last_page]. unfold delay, Qle, Qminus, Qplus, Qopp; simpl. lia.
  - vm_compute. discriminate.
Qed.

(** C2, amended.  The controller toggles the mode and records the clock
    exactly when the reading exceeds 1500 and more than [delay] (0.5 s) has
    passed since [last_page]; otherwise the state is unchanged.  After an
    accepted tap, no reading taken within [delay] of the recorded time
    changes the state again, and the next reading above the threshold taken
    more than [delay] after it brings the mode back to the original one. *)
Theorem mode_controller_debounce (s : state) (prox : Z) (t_test t_set : Q) :
  let s1 := mode_controller s prox t_test t_set in
  (accepts s prox t_test ->
     s1 = {| display_type := toggle (display_type s);
             last_page := t_set;
             aww_go_on := aww_go_on s |}) /\
  (~ accepts s prox t_test -> s1 = s) /\
  (accepts s prox t_test ->
     forall spikes : list (Z * Q * Q),
       Forall (within_window t_set) spikes -> run_taps s1 spikes = s1) /\
  (accepts s prox t_test ->
     forall (between : list (Z * Q * Q)) (prox' : Z) (t_test' t_set' : Q),
       Forall (ignored s1) between ->
       (1500 < prox')%Z -> delay < t_test' - t_set ->
       run_taps s1 (between ++ [(prox', t_test', t_set')])
       = {| display_type := display_type s;
            last_page := t_set';
            aww_go_on := aww_go_on s |}).
Proof.
  cbv zeta. split; [apply mode_controller_accepted |].
  split; [apply mode_controller_ignored |].
  split.
  - intros Hacc spikes Hin.
    rewrite (mode_controller_accepted s prox t_test t_set Hacc) in *.
    apply run_taps_ignored.
    eapply Forall_impl; [| exact Hin].
    intros r Hr. apply within_window_ignored. exact Hr.
  - intros Hacc between prox' t_test' t_set' Hbetween Hprox Hlate.
    rewrite run_taps_app, (run_taps_ignored _ _ Hbetween).
    rewrite (mode_controller_accepted s prox t_test t_set Hacc).
    unfold run_taps. cbn [fold_left].
    rewrite mode_controller_accepted by (split; assumption).
    cbn [display_type aww_go_on]. rewrite toggle_toggle. reflexivity.
Qed.

Lemma mode_controller_debounce_two_taps :
  run_taps (mode_controller initial 2000 1700000000 1700000000)
           ([(100%Z, 6800000001 # 4, 0)]
              ++ [(2000%Z, 1700000001, 1700000001)])
  = {| display_type := "n"; last_page := 1700000001; aww_go_on := true |}.
Proof.
  apply (proj2 (proj2 (proj2
           (mode_controller_debounce initial 2000 1700000000 1700000000)))).
  - split; [reflexivity | reflexivity].
  - constructor; [| constructor].
    intros [H _]. vm_compute in H. discriminate.
  - reflexivity.
  - reflexivity.
Defined.

(** C10.  While no tap has been accepted, [last_page] is still 0, so the
    first reading above 1500 that follows any number of readings at or
    below it is accepted as soon as the clock itself reads more than
    [delay] seconds, which every clock past 1970-01-01 00:00:00.5 does. *)
Theorem first_tap_is_accepted
  (quiet : list (Z * Q * Q)) (prox : Z) (t_test t_set : Q) :
  Forall below_threshold quiet ->
  (1500 < prox)%Z -> delay < t_test ->
  run_taps initial (quiet ++ [(prox, t_test, t_set)])
  = {| display_type := "l"; last_page := t_set; aww_go_on := true |}.
Proof.
  intros Hquiet Hprox Hclock.
  rewrite run_taps_app, (run_taps_ignored initial quiet).
  - unfold run_taps. cbn [fold_left].
    rewrite mode_controller_accepted; [reflexivity |].
    split; [exact Hprox |]. cbn [initial last_page].
    assert (t_test - 0 == t_test) as -> by ring. exact Hclock.
  - eapply Forall_impl; [| exact Hquiet].
    intros r. apply below_threshold_ignored.
Qed.

Lemma first_tap_is_accepted_example :
  run_taps initial ([(12%Z, 1700000000, 0); (1500%Z, 1700000001, 0)]
                      ++ [(1501%Z, 1700000002, 1700000003)])
  = {| display_type := "l"; last_page := 1700000003; aww_go_on := true |}.
Proof.
  apply (first_tap_is_accepted
           [(12%Z, 1700000000, 0); (1500%Z, 1700000001, 0)]
           1501 1700000002 1700000003).
  - repeat constructor; unfold below_threshold; simpl; lia.
  - lia.
  - reflexivity.
Defined.

End ModeController.

(** ** The display type between iterations *)

Section DisplayType.

Variable disp : ST7735.

Lemma toggle_well_formed (d : string) :
  d = "n"%string \/ d = "l"%string ->
  toggle d = "n"%string \/ toggle d = "l"%string.
Proof. intros [-> | ->]; [right | left]; reflexivity. Qed.

Lemma mode_controller_well_formed
  (s : state) (prox : Z) (t_test t_set : Q) :
  well_formed s -> well_formed (mode_controller s prox t_test t_set).
Proof.
  intros [Hd Ha]. unfold mode_controller.
  destruct ((1500 <? prox)%Z && Qgt_bool (t_test - last_page s) delay).
  - split; [apply toggle_well_formed; exact Hd | exact Ha].
  - split; assumption.
Qed.

(** With a display type of 'n' or 'l' the chart keeps the loop variables
    and never is the error screen. *)
Lemma chart_well_formed (s s' : state) (weighted_amps : list R) (scr : screen) :
  well_formed s ->
  chart disp s weighted_amps = Ok (s', scr) ->
  s' = s /\ scr <> Oops.
Proof.
  intros [[Hd | Hd] _]; unfold chart; rewrite Hd; simpl.
  - intros [= <- <-]. split; [reflexivity | discriminate].
  - destruct (comprehension (bar_value_log2 disp) weighted_amps);
      simpl; [| discriminate].
    intros [= <- <-]. split; [reflexivity | discriminate].
Qed.

Lemma loop_body_well_formed (s s' : state) (i : input) (scr : screen) :
  well_formed s ->
  loop_body disp s i = Ok (s', scr) ->
  well_formed s' /\ scr <> Oops.
Proof.
  intros Hs. unfold loop_body.
  destruct ranges as [rs |]; cbn [bind]; [| discriminate].
  destruct (Noise.get_amplitudes_at_frequency_ranges _ _ _) as [amps |];
    cbn [bind]; [| discriminate].
  destruct (weigh _ _ _) as [w |]; cbn [bind]; [| discriminate].
  intros Hc.
  pose proof (mode_controller_well_formed
                s (proximity i) (now_test i) (now_set i) Hs) as H1.
  destruct (chart_well_formed _ _ _ _ H1 Hc) as [-> Hscr].
  split; assumption.
Qed.

Lemma reachable_well_formed (s : state) : reachable disp s -> well_formed s.
Proof.
  induction 1 as [| s i s' scr _ IH _ Hstep].
  - split; [left |]; reflexivity.
  - exact (proj1 (loop_body_well_formed _ _ _ _ IH Hstep)).
Qed.

(** The screens of a run that starts well formed hold no error screen, and
    the run ends well formed. *)
Lemma main_loop_well_formed (inputs : list input) :
  forall (s s' : state) (screens : list screen),
    well_formed s ->
    main_loop disp s inputs = Ok (s', screens) ->
    well_formed s' /\ ~ In Oops screens.
Proof.
  induction inputs as [| i inputs IH]; intros s s' screens Hs.
  - cbn [main_loop]. intros [= <- <-]. split; [exact Hs | intros []].
  - cbn [main_loop]. rewrite (proj2 Hs).
    destruct (loop_body disp s i) as [[s1 scr] |] eqn:Hstep;
      cbn [bind fst snd]; [| discriminate].
    destruct (loop_body_well_formed _ _ _ _ Hs Hstep) as [Hs1 Hscr].
    destruct (main_loop disp s1 inputs) as [[s2 screens'] |] eqn:Hrest;
      cbn [bind fst snd]; [| discriminate].
    intros [= <- <-].
    destruct (IH _ _ _ Hs1 Hrest) as [Hs2 Hno].
    split; [exact Hs2 |].
    intros [Heq | Hin]; [exact (Hscr Heq) | exact (Hno Hin)].
Qed.

(** C6.  Every state in which an iteration can start has display type 'n'
    or 'l' and the loop flag set; hence an iteration that completes never
    shows the "Oops" screen and never clears the flag. *)
Theorem display_type_invariant (s : state) :
  reachable disp s ->
  (display_type s = "n"%string \/ display_type s = "l"%string) /\
  aww_go_on s = true /\
  forall (i : input) (s' : state) (scr : screen),
    loop_body disp s i = Ok (s', scr) -> scr <> Oops /\ aww_go_on s' = true.
Proof.
  intros Hr. pose proof (reachable_well_formed s Hr) as Hs.
  split; [exact (proj1 Hs) |]. split; [exact (proj2 Hs) |].
  intros i s' scr Hstep.
  destruct (loop_body_well_formed s s' i scr Hs Hstep) as [[_ Ha'] Hscr].
  split; assumption.
Qed.

End DisplayType.

Lemma display_type_invariant_initial :
  (display_type initial = "n"%string \/ display_type initial = "l"%string) /\
  aww_go_on initial = true /\
  forall (i : input) (s' : state) (scr : screen),
    loop_body panel initial i = Ok (s', scr) ->
    scr <> Oops /\ aww_go_on s' = true.
Proof.
  apply (display_type_invariant panel initial).
  apply reachable_initial.
Defined.

(** ** More on the spectral estimator *)

Section EstimatorShape.

Local Open Scope R_scope.

Lemma rsum_nonneg (l : list R) : Forall (fun x => 0 <= x) l -> 0 <= Noise.rsum l.
Proof.
  induction 1 as [| x l Hx _ IH]; simpl; lra.
Qed.


(** The power of a bin is the squared modulus, without the square root. *)
Lemma np_square_abs (c : R * R) :
  Noise.np_square (Noise.np_abs c) = fst c * fst c + snd c * snd c.
Proof.
  unfold Noise.np_square, Noise.np_abs.
  apply sqrt_sqrt. nra.
Qed.

Lemma magnitude_nonneg (self : Noise.t) (recording : list R) :
  Forall (fun x => 0 <= x) (magnitude_of self recording).
Proof.
  unfold magnitude_of. apply Forall_forall. intros x Hx.
  apply in_map_iff in Hx as (c & <- & _).
  rewrite np_square_abs. nra.
Qed.

Lemma slice_nonneg (l : list R) (start stop : Z) :
  Forall (fun x => 0 <= x) l -> Forall (fun x => 0 <= x) (Py.slice l start stop).
Proof.
  intros Hl. unfold Py.slice.
  apply Forall_forall; intros x Hx.
  apply In_firstn, In_skipn in Hx.
  exact (proj1 (Forall_forall _ l) Hl x Hx).
Qed.

Lemma slice_empty {A : Type} (l : list A) (start stop : Z) :
  nonempty_span (Z.of_nat (length l)) (start, stop) = false ->
  Py.slice l start stop = [].
Proof.
  unfold nonempty_span, Py.slice; simpl fst; simpl snd.
  intros H. apply Z.ltb_ge in H.
  replace (Z.to_nat _) with 0%nat by lia. reflexivity.
Qed.

Lemma np_mean_nonempty (l : list R) :
  (0 < length l)%nat -> Noise.np_mean l = Ok (Noise.rsum l / INR (length l)).
Proof. destruct l; simpl; [lia | reflexivity]. Qed.

(** The loop returns the band amplitudes in the order of the ranges, behind
    what was accumulated, unless one of the slices is empty. *)
Lemma amplitudes_loop_spec (magnitude : list R) (rs : list (Z * Z)) :
  forall acc : list R,
    Noise.amplitudes_loop magnitude rs acc
    = if forallb (nonempty_span (Z.of_nat (length magnitude))) rs
      then Ok (acc ++ map (band_amplitude magnitude) rs)
      else Raise NotANumber.
Proof.
  induction rs as [| [start stop] rs IH]; intros acc.
  - simpl. rewrite app_nil_r. reflexivity.
  - cbn [Noise.amplitudes_loop forallb map].
    destruct (nonempty_span _ (start, stop)) eqn:E.
    + rewrite (np_mean_nonempty _ (slice_length _ _ _ E)).
      cbn [bind andb]. rewrite IH.
      destruct (forallb _ rs); [| reflexivity].
      rewrite <- app_assoc. reflexivity.
    + rewrite (slice_empty _ _ _ E). reflexivity.
Qed.

Lemma magnitude_of_length (self : Noise.t) (recording : list R) :
  length (magnitude_of self recording)
  = (Noise.sample_rate self / 2 + 1)%nat.
Proof. unfold magnitude_of. rewrite length_map. apply rfft_length. Qed.

Lemma band_amplitude_nonneg (magnitude : list R) (r : Z * Z) :
  0 <= band_amplitude magnitude r.
Proof. unfold band_amplitude. apply sqrt_pos. Qed.

(** X1.  For a positive sample rate and ranges that are all non-empty once
    clipped to the [sample_rate/2 + 1] bins of the spectrum, the estimator
    returns one amplitude per range, in the order of the ranges, each the
    root of the mean power over the clipped slice and none negative. *)
Theorem get_amplitudes_shape
  (self : Noise.t) (recording : list R) (rs : list (Z * Z)) :
  (0 < Noise.sample_rate self)%nat ->
  forallb (nonempty_span (Z.of_nat (Noise.sample_rate self / 2 + 1))) rs
  = true ->
  exists amps : list R,
    Noise.get_amplitudes_at_frequency_ranges self recording rs = Ok amps /\
    amps = map (band_amplitude (magnitude_of self recording)) rs /\
    length amps = length rs /\
    Forall (fun a => 0 <= a) amps.
Proof.
  intros _ Hne.
  rewrite get_amplitudes_magnitude, amplitudes_loop_spec.
  rewrite magnitude_of_length, Hne.
  eexists. split; [reflexivity |]. split; [reflexivity |].
  split; [apply length_map |].
  apply Forall_forall. intros a Ha.
  apply in_map_iff in Ha as (r & <- & _). apply band_amplitude_nonneg.
Qed.

(** None of the program's eight ranges is empty in a spectrum of 8001
    bins. *)
Lemma bands_amplitudes (recording : list R) :
  exists amps : list R,
    Noise.get_amplitudes_at_frequency_ranges noise recording
      [(5656, 11296); (2828, 5648); (1414, 2824); (707, 1412);
       (354, 706); (177, 353); (88, 176); (45, 89)]%Z
    = Ok amps /\
    length amps = 8%nat /\
    Forall (fun a => 0 <= a) amps.
Proof.
  rewrite get_amplitudes_magnitude, amplitudes_loop_spec.
  rewrite magnitude_length.
  change (forallb (nonempty_span 8001) _) with true. cbv iota.
  eexists. split; [reflexivity |]. split; [reflexivity |].
  apply Forall_forall. intros a Ha.
  apply in_map_iff in Ha as (r & <- & _). apply band_amplitude_nonneg.
Qed.

(** X2.  With the program's eight ranges and sample rate the estimator
    never meets an empty range: for every recorded block it returns eight
    amplitudes, none negative. *)
Theorem get_amplitudes_of_bands (recording : list R) :
  exists (rs : list (Z * Z)) (amps : list R),
    ranges = Ok rs /\
    Noise.get_amplitudes_at_frequency_ranges noise recording rs = Ok amps /\
    length amps = 8%nat /\
    Forall (fun a => 0 <= a) amps.
Proof.
  destruct (bands_amplitudes recording) as (amps & Hget & Hlen & Hpos).
  eexists. exists amps.
  split; [exact ranges_value |].
  split; [exact Hget |]. split; [exact Hlen | exact Hpos].
Qed.

(** X3.  A stop bound beyond the last bin is clipped: the estimator gives
    the same result when every range is cut at [sample_rate/2 + 1]. *)
Theorem get_amplitudes_clipped
  (self : Noise.t) (recording : list R) (rs : list (Z * Z)) :
  let bins := Z.of_nat (Noise.sample_rate self / 2 + 1) in
  Noise.get_amplitudes_at_frequency_ranges self recording
    (map (fun r => (fst r, Z.min (snd r) bins)) rs)
  = Noise.get_amplitudes_at_frequency_ranges self recording rs.
Proof.
  cbv zeta. rewrite !get_amplitudes_magnitude.
  rewrite <- (magnitude_of_length self recording).
  generalize (magnitude_of self recording) as magnitude. intros magnitude.
  generalize (@nil R) as acc.
  induction rs as [| [start stop] rs IH]; intros acc; [reflexivity |].
  cbn [map Noise.amplitudes_loop fst snd].
  assert (Py.slice magnitude start (Z.min stop (Z.of_nat (length magnitude)))
          = Py.slice magnitude start stop) as ->.
  { unfold Py.slice.
    assert (Py.slice_bound (Z.of_nat (length magnitude))
              (Z.min stop (Z.of_nat (length magnitude)))
            = Py.slice_bound (Z.of_nat (length magnitude)) stop) as ->;
      [| reflexivity].
    unfold Py.slice_bound.
    destruct (stop <? 0)%Z eqn:E1;
      destruct (Z.min stop (Z.of_nat (length magnitude)) <? 0)%Z eqn:E2;
      lia. }
  destruct (Noise.np_mean _); cbn [bind]; [apply IH | reflexivity].
Qed.

End EstimatorShape.

(** *** Scaling and padding the recorded block *)

Section EstimatorScaling.

Local Open Scope R_scope.








Lemma resize_padded (n m : nat) (a : list R) :
  Noise.resize n (a ++ repeat 0 m) = Noise.resize n a.
Proof.
  unfold Noise.resize.
  apply (nth_ext _ _ 0 0).
  - rewrite !length_app, !length_firstn, !repeat_length, !length_app,
      !repeat_length. lia.
  - intros i _.
    assert (forall (l : list R) (p : nat),
               nth i (firstn n l ++ repeat 0 p) 0
               = if (i <? n)%nat then nth i l 0 else 0) as Hnth.
    { intros l p. destruct (i <? n)%nat eqn:E.
      - apply Nat.ltb_lt in E.
        destruct (Nat.lt_ge_cases i (length l)) as [Hi | Hi].
        + rewrite app_nth1 by (rewrite length_firstn; lia).
          rewrite <- (firstn_skipn n l) at 2.
          rewrite app_nth1 by (rewrite length_firstn; lia). reflexivity.
        + rewrite (nth_overflow l) by lia.
          rewrite app_nth2 by (rewrite length_firstn; lia).
          apply nth_repeat.
      - apply Nat.ltb_ge in E.
        rewrite app_nth2 by (rewrite length_firstn; lia).
        apply nth_repeat. }
    rewrite !Hnth. destruct (i <? n)%nat; [| reflexivity].
    destruct (Nat.lt_ge_cases i (length a)) as [Hi | Hi].
    + apply app_nth1. exact Hi.
    + rewrite app_nth2, nth_repeat, nth_overflow by lia. reflexivity.
Qed.

(** X5.  The transform always takes [sample_rate] points: zero samples
    appended to the block change nothing, so a short block is measured as
    if it were followed by silence. *)
Theorem get_amplitudes_zero_padded
  (self : Noise.t) (recording : list R) (rs : list (Z * Z)) (m : nat) :
  Noise.get_amplitudes_at_frequency_ranges self (recording ++ repeat 0 m) rs
  = Noise.get_amplitudes_at_frequency_ranges self recording rs.
Proof.
  unfold Noise.get_amplitudes_at_frequency_ranges, Noise.rfft.
  rewrite resize_padded. reflexivity.
Qed.

End EstimatorScaling.

(** ** More on the band weighter *)

Section WeighterBounds.

Local Open Scope R_scope.

Lemma getitem_overflow {A : Type} (l : list A) (i : nat) :
  (length l <= i)%nat -> Py.getitem l i = Raise IndexError.
Proof.
  intros Hi. unfold Py.getitem.
  rewrite (proj2 (nth_error_None l i) Hi). reflexivity.
Qed.

Lemma weighted_loop_on_short {A : Type} (weighted : A -> A -> A) (d : A)
  (amps ws : list A) (m : nat) :
  forall (k : nat) (acc : list A),
    (k <= length amps)%nat -> (k <= length ws)%nat ->
    (length amps < k + m)%nat \/ (length ws < k + m)%nat ->
    weighted_loop_on weighted (seq k m) amps ws acc = Raise IndexError.
Proof.
  induction m as [| m IH]; intros k acc Ha Hw Hshort; [lia |].
  cbn [seq weighted_loop_on].
  destruct (Nat.eq_dec k (length amps)) as [Ea | Ea].
  - rewrite (getitem_overflow amps k) by lia. reflexivity.
  - rewrite (getitem_nth amps k d) by lia. cbn [bind].
    destruct (Nat.eq_dec k (length ws)) as [Ew | Ew].
    + rewrite (getitem_overflow ws k) by lia. reflexivity.
    + rewrite (getitem_nth ws k d) by lia. cbn [bind].
      apply IH; lia.
Qed.

(** X6.  The weighting loop reads indices [0 .. n-1] of both vectors: with
    both at least [n] long it returns the [n] weighted amplitudes, each
    computed in binary64 from the entries at its index (longer vectors are
    cut), and if either is shorter it stops with [IndexError]. *)
Theorem weigh64_bounds (amps ws : list float) (n : nat) :
  ((n <= length amps)%nat /\ (n <= length ws)%nat ->
     weigh64 amps ws n
     = Ok (map (fun b => weighted64 (nth b amps 0%float) (nth b ws 0%float))
               (seq 0 n))) /\
  ((length amps < n)%nat \/ (length ws < n)%nat ->
     weigh64 amps ws n = Raise IndexError).
Proof.
  unfold weigh64. split.
  - intros [Ha Hw].
    rewrite (weighted_loop_on_spec weighted64 0%float amps ws n 0 [])
      by (simpl; lia || reflexivity).
    reflexivity.
  - intros Hshort.
    apply (weighted_loop_on_short weighted64 0%float); [lia | lia | exact Hshort].
Qed.

Lemma weigh64_bounds_example :
  weigh64 [0.53125; 0.1328125; 7; 7]%float a_weightings64 2
  = Ok (map (fun b => weighted64
                        (nth b [0.53125; 0.1328125; 7; 7]%float 0%float)
                        (nth b a_weightings64 0%float))
            (seq 0 2)) /\
  weigh64 [1; 2; 3]%float a_weightings64 no_of_measurements
  = Raise IndexError.
Proof.
  split.
  - apply (proj1 (weigh64_bounds
                    [0.53125; 0.1328125; 7; 7]%float a_weightings64 2)).
    simpl. lia.
  - apply (proj2 (weigh64_bounds
                    [1; 2; 3]%float a_weightings64 no_of_measurements)).
    left. unfold no_of_measurements, bands. simpl. lia.
Defined.

Lemma round_half_even_small (y : R) :
  - (1 / 2) <= y <= 1 / 2 -> Py.round_half_even y = 0%Z.
Proof.
  intros [Hlo Hhi]. unfold Py.round_half_even.
  destruct (Rle_lt_dec 0 y) as [Hy | Hy].
  - assert (Int_part y = 0%Z) as -> by (symmetry; apply Int_part_spec; lra).
    destruct (Rlt_dec _ _); [reflexivity |].
    destruct (Rlt_dec _ _); [lra | reflexivity].
  - assert (Int_part y = (-1)%Z) as -> by (symmetry; apply Int_part_spec; lra).
    destruct (Rlt_dec _ _); [lra |].
    destruct (Rlt_dec _ _); reflexivity.
Qed.

(** Anything up to half a hundredth is rounded to 0.0. *)
Lemma round_ndigits_small (x : R) :
  0 <= x <= 1 / 200 -> Py.round_ndigits x 2 = 0.
Proof.
  intros Hx. rewrite round_ndigits_2.
  rewrite round_half_even_small by lra. lra.
Qed.

Lemma round_ndigits_nonneg (x : R) : 0 <= x -> 0 <= Py.round_ndigits x 2.
Proof.
  intros Hx. rewrite <- round_ndigits_0. apply round_ndigits_mono. exact Hx.
Qed.

Lemma weighted_product_nonneg (amps : list R) (b : nat) :
  Forall (fun a => 0 <= a) amps ->
  0 <= 2 * (nth b amps 0 * nth b a_weightings 0).
Proof.
  intros Hpos.
  assert (0 <= nth b amps 0) as Ha.
  { destruct (Nat.lt_ge_cases b (length amps)) as [Hb | Hb].
    - apply (proj1 (Forall_forall _ amps) Hpos), nth_In. exact Hb.
    - rewrite nth_overflow by exact Hb. lra. }
  assert (0 <= nth b a_weightings 0) as Hw.
  { do 8 (destruct b as [| b]; [simpl; lra |]). destruct b; simpl; lra. }
  nra.
Qed.

(** X7.  With the program's weights, non-negative amplitudes give
    non-negative weighted amplitudes, and a band is weighted to exactly 0.0
    as soon as twice its amplitude times its weight is at most 0.005. *)
Theorem weighted_amps_nonneg (amps : list R) :
  length amps = 8%nat ->
  Forall (fun a => 0 <= a) amps ->
  exists weighted_amps : list R,
    weigh amps a_weightings no_of_measurements = Ok weighted_amps /\
    length weighted_amps = 8%nat /\
    Forall (fun s => 0 <= s) weighted_amps /\
    forall b : nat, (b < 8)%nat ->
      2 * (nth b amps 0 * nth b a_weightings 0) <= 1 / 200 ->
      nth b weighted_amps 0 = 0.
Proof.
  intros Hlen Hpos.
  assert (forall b, (b < 8)%nat ->
            0 <= 2 * (nth b amps 0 * nth b a_weightings 0)) as Hprod
    by (intros b _; apply weighted_product_nonneg; exact Hpos).
  eexists. split; [| split; [| split]].
  - change no_of_measurements with 8%nat.
    apply weigh_spec; [lia | simpl; lia].
  - rewrite length_map, length_seq. reflexivity.
  - apply Forall_forall. intros s Hs.
    apply in_map_iff in Hs as (b & <- & Hb). apply in_seq in Hb.
    apply round_ndigits_nonneg, Hprod. lia.
  - intros b Hb Hsmall. rewrite nth_map_seq by exact Hb.
    apply round_ndigits_small. split; [apply Hprod; exact Hb | exact Hsmall].
Qed.

Lemma weighted_amps_nonneg_example :
  exists weighted_amps : list R,
    weigh [9; 8; 7; 6; 5; 4; 3; 0.5] a_weightings no_of_measurements
    = Ok weighted_amps /\
    length weighted_amps = 8%nat /\
    Forall (fun s => 0 <= s) weighted_amps /\
    forall b : nat, (b < 8)%nat ->
      2 * (nth b [9; 8; 7; 6; 5; 4; 3; 0.5] 0 * nth b a_weightings 0) <= 1 / 200 ->
      nth b weighted_amps 0 = 0.
Proof.
  apply (weighted_amps_nonneg [9; 8; 7; 6; 5; 4; 3; 0.5]).
  - reflexivity.
  - repeat constructor; lra.
Defined.

End WeighterBounds.

(** ** More on the two charts *)

Section Charts.

Local Open Scope R_scope.

Variable disp : ST7735.

Lemma ln_le_mono (x y : R) : 0 < x -> x <= y -> ln x <= ln y.
Proof.
  intros Hx [Hlt | ->]; [| lra].
  pose proof (ln_increasing x y Hx Hlt). lra.
Qed.

(** The width of the specification is non-decreasing in the amplitude. *)
Lemma spec_log2_pixel_width_mono (W s1 s2 : R) :
  0 <= W -> 0 < s1 -> s1 <= s2 ->
  spec_log2_pixel_width W s1 (IZR max_spl)
  <= spec_log2_pixel_width W s2 (IZR max_spl).
Proof.
  intros HW H1 H12. unfold spec_log2_pixel_width. fold log2_max_spl.
  pose proof log2_max_spl_pos as HL. pose proof ln_2_pos as H2.
  pose proof (ln_le_mono s1 s2 H1 H12) as Hln.
  apply Rmult_le_compat_l; [exact HW |].
  unfold Rdiv at 1 3. apply Rmult_le_compat_r.
  - left. apply Rinv_0_lt_compat. exact HL.
  - apply Rle_max_compat_l.
    unfold Rdiv. apply Rmult_le_compat_r; [| exact Hln].
    left. apply Rinv_0_lt_compat. exact H2.
Qed.

(** X8.  On a display at least as wide as the label margin the log2 bar
    is non-decreasing in the (positive) amplitude, and for amplitudes up to
    [max_spl] it lies between 0 and the full width. *)
Theorem bar_value_log2_mono (s1 s2 : R) :
  (l_margin <= width disp)%Z -> 0 < s1 -> s1 <= s2 ->
  exists b1 b2 : R,
    bar_value_log2 disp s1 = Ok b1 /\
    bar_value_log2 disp s2 = Ok b2 /\
    0 <= b1 <= b2 /\
    (s2 <= IZR max_spl -> b2 <= IZR (width disp - l_margin)).
Proof.
  intros HW H1 H12.
  assert (0 <= IZR (width disp - l_margin)) as HW0 by (apply IZR_le; lia).
  rewrite (bar_value_log2_pos disp s1) by lra.
  rewrite (bar_value_log2_pos disp s2) by lra.
  eexists. eexists. split; [reflexivity |]. split; [reflexivity |].
  split; [split |].
  - apply round_ndigits_nonneg. unfold spec_log2_pixel_width.
    fold log2_max_spl. pose proof log2_max_spl_pos as HL.
    apply Rmult_le_pos; [exact HW0 |].
    unfold Rdiv. apply Rmult_le_pos; [apply Rmax_l |].
    left. apply Rinv_0_lt_compat. exact HL.
  - apply round_ndigits_mono, spec_log2_pixel_width_mono; assumption.
  - intros Hmax.
    pose proof (bar_value_log2_max_spl disp) as Hfull.
    rewrite bar_value_log2_pos in Hfull by (unfold max_spl; lra).
    injection Hfull as Hfull. rewrite <- Hfull at 2.
    apply round_ndigits_mono, spec_log2_pixel_width_mono; try assumption.
    lra.
Qed.

(** The log2 comprehension draws every bar when all amplitudes are
    positive, and stops at the first one that is not. *)
Lemma log2_bars (weighted_amps : list R) :
  (Forall (fun s => 0 < s) weighted_amps ->
     exists bars : list R,
       comprehension (bar_value_log2 disp) weighted_amps = Ok bars /\
       length bars = length weighted_amps) /\
  (Exists (fun s => s <= 0) weighted_amps ->
     comprehension (bar_value_log2 disp) weighted_amps = Raise ValueError).
Proof.
  induction weighted_amps as [| s l [IHok IHbad]].
  - split.
    + intros _. exists []. split; reflexivity.
    + intros H. inversion H.
  - split.
    + intros H. inversion H as [| ? ? Hs Hl]; subst.
      destruct (IHok Hl) as (bars & Hbars & Hlen).
      cbn [comprehension]. rewrite (bar_value_log2_pos disp s Hs), Hbars.
      cbn [bind]. eexists. split; [reflexivity |].
      simpl. rewrite Hlen. reflexivity.
    + intros H. cbn [comprehension].
      destruct (Rle_lt_dec s 0) as [Hs | Hs].
      * rewrite (bar_value_log2_nonpos disp s Hs). reflexivity.
      * rewrite (bar_value_log2_pos disp s Hs). cbn [bind].
        inversion H as [? ? Hbad | ? ? Hbad]; subst; [lra |].
        rewrite (IHbad Hbad). reflexivity.
Qed.

(** X9.  In the log2 display type the chart is drawn, with one bar per
    band and the state untouched, when every weighted amplitude is
    positive; a single amplitude that is zero or negative makes it raise
    [ValueError]. *)
Theorem log2_chart_outcome (s : state) (weighted_amps : list R) :
  display_type s = "l"%string ->
  (Forall (fun a => 0 < a) weighted_amps ->
     exists bars : list R,
       chart disp s weighted_amps
       = Ok (s, Chart "Log(2) Ampilitude RMS(A)" (251, 164, 9)%Z bars) /\
       length bars = length weighted_amps) /\
  (Exists (fun a => a <= 0) weighted_amps ->
     chart disp s weighted_amps = Raise ValueError).
Proof.
  intros Hd. unfold chart. rewrite Hd.
  change (("l" =? "l")%string) with true. cbv iota.
  destruct (log2_bars weighted_amps) as [Hok Hbad]. split.
  - intros Hpos. destruct (Hok Hpos) as (bars & -> & Hlen).
    exists bars. split; [reflexivity | exact Hlen].
  - intros Hex. rewrite (Hbad Hex). reflexivity.
Qed.

End Charts.

Lemma bar_value_log2_mono_example :
  exists b1 b2 : R,
    bar_value_log2 panel 3 = Ok b1 /\
    bar_value_log2 panel 200 = Ok b2 /\
    (0 <= b1 <= b2)%R /\
    ((200 <= IZR max_spl)%R -> (b2 <= IZR (width panel - l_margin))%R).
Proof.
  apply (bar_value_log2_mono panel 3 200).
  - unfold l_margin, panel. simpl. lia.
  - lra.
  - lra.
Defined.

Lemma log2_chart_outcome_example :
  let s := {| display_type := "l"; last_page := 0; aww_go_on := true |} in
  (Forall (fun a => (0 < a)%R) [2; 0; 5]%R ->
     exists bars : list R,
       chart panel s [2; 0; 5]%R
       = Ok (s, Chart "Log(2) Ampilitude RMS(A)" (251, 164, 9)%Z bars) /\
       length bars = length [2; 0; 5]%R) /\
  chart panel s [2; 0; 5]%R = Raise ValueError.
Proof.
  cbv zeta.
  destruct (log2_chart_outcome
              panel {| display_type := "l"; last_page := 0; aww_go_on := true |}
              [2; 0; 5]%R) as [Hok Hbad].
  - reflexivity.
  - split; [exact Hok |]. apply Hbad.
    apply Exists_cons_tl, Exists_cons_hd. lra.
Defined.

(** *** The linear chart *)

Section LinearChart.

Local Open Scope R_scope.

Variable disp : ST7735.


End LinearChart.


(** ** Whole iterations *)

Section Iterations.

Local Open Scope R_scope.

Variable disp : ST7735.

(** X11.  A band quiet enough to be weighted to 0.0 (for the 63 Hz band,
    weight 0.003, any amplitude up to 5/6) is enough for the log2 chart to
    raise [ValueError], whatever the other bands hold. *)
Theorem log2_chart_of_quiet_band (s : state) (amps : list R) (b : nat) :
  display_type s = "l"%string ->
  length amps = 8%nat ->
  Forall (fun a => 0 <= a) amps ->
  (b < 8)%nat ->
  2 * (nth b amps 0 * nth b a_weightings 0) <= 1 / 200 ->
  exists weighted_amps : list R,
    weigh amps a_weightings no_of_measurements = Ok weighted_amps /\
    chart disp s weighted_amps = Raise ValueError.
Proof.
  intros Hd Hlen Hpos Hb Hquiet.
  eexists. split.
  - change no_of_measurements with 8%nat.
    apply weigh_spec; [lia | simpl; lia].
  - unfold chart. rewrite Hd.
    change (("l" =? "l")%string) with true. cbv iota.
    rewrite (proj2 (log2_bars disp _)); [reflexivity |].
    apply Exists_exists.
    exists (Py.round_ndigits (2 * (nth b amps 0 * nth b a_weightings 0)) 2).
    split.
    + apply in_map_iff. exists b. split; [reflexivity |].
      apply in_seq. lia.
    + rewrite round_ndigits_small; [lra |].
      split; [apply weighted_product_nonneg; exact Hpos | exact Hquiet].
Qed.

(** Whatever was recorded, an iteration that ends up in the linear display
    type draws its eight bars. *)
Lemma linear_iteration_completes (s : state) (i : input) :
  let s1 := mode_controller s (proximity i) (now_test i) (now_set i) in
  display_type s1 = "n"%string ->
  exists bars : list R,
    loop_body disp s i
    = Ok (s1, Chart "Ampilitude RMS(A)" (58, 68, 238)%Z bars) /\
    length bars = 8%nat.
Proof.
  cbv zeta. intros Hd. unfold loop_body.
  destruct (bands_amplitudes (recording i)) as (amps & Hamps & Hlen & _).
  rewrite ranges_value. cbn [bind]. rewrite Hamps. cbn [bind].
  change no_of_measurements with 8%nat.
  rewrite weigh_spec by (rewrite ?Hlen; simpl; lia). cbn [bind].
  unfold chart. rewrite Hd.
  change (("n" =? "l")%string) with false.
  change (("n" =? "n")%string) with true. cbv iota.
  eexists. split; [reflexivity |].
  rewrite !length_map, length_seq. reflexivity.
Qed.

Lemma loop_body_state (s s' : state) (i : input) (scr : screen) :
  well_formed s ->
  loop_body disp s i = Ok (s', scr) ->
  s' = mode_controller s (proximity i) (now_test i) (now_set i).
Proof.
  intros Hs. unfold loop_body.
  destruct ranges as [rs |]; cbn [bind]; [| discriminate].
  destruct (Noise.get_amplitudes_at_frequency_ranges _ _ _) as [amps |];
    cbn [bind]; [| discriminate].
  destruct (weigh _ _ _) as [w |]; cbn [bind]; [| discriminate].
  intros Hc.
  pose proof (mode_controller_well_formed
                s (proximity i) (now_test i) (now_set i) Hs) as H1.
  exact (proj1 (chart_well_formed disp _ _ _ _ H1 Hc)).
Qed.

(** X13.  The display type does not depend on the sound: when a run of the
    loop completes, its final state is the one the mode controller alone
    reaches on the run's sensor and clock readings, and one screen was
    shown per iteration. *)
Theorem main_loop_state (inputs : list input) :
  forall (s s' : state) (screens : list screen),
    well_formed s ->
    main_loop disp s inputs = Ok (s', screens) ->
    s' = run_taps s (map readings inputs) /\
    length screens = length inputs.
Proof.
  induction inputs as [| i inputs IH]; intros s s' screens Hs.
  - cbn [main_loop]. intros [= <- <-]. split; reflexivity.
  - cbn [main_loop]. rewrite (proj2 Hs).
    destruct (loop_body disp s i) as [[s1 scr] |] eqn:Hstep;
      cbn [bind fst snd]; [| discriminate].
    destruct (main_loop disp s1 inputs) as [[s2 screens'] |] eqn:Hrest;
      cbn [bind fst snd]; [| discriminate].
    intros [= <- <-].
    destruct (loop_body_well_formed disp _ _ _ _ Hs Hstep) as [Hs1 _].
    destruct (IH _ _ _ Hs1 Hrest) as [-> Hlen].
    rewrite (loop_body_state _ _ _ _ Hs Hstep).
    split; [reflexivity |]. simpl. rewrite Hlen. reflexivity.
Qed.

End Iterations.

Lemma log2_chart_of_quiet_band_example :
  exists weighted_amps : list R,
    weigh [9; 8; 7; 6; 5; 4; 3; 0.5]%R a_weightings no_of_measurements
    = Ok weighted_amps /\
    chart panel {| display_type := "l"; last_page := 0; aww_go_on := true |}
          weighted_amps
    = Raise ValueError.
Proof.
  apply (log2_chart_of_quiet_band
           panel {| display_type := "l"; last_page := 0; aww_go_on := true |}
           [9; 8; 7; 6; 5; 4; 3; 0.5]%R 7).
  - reflexivity.
  - reflexivity.
  - repeat constructor; lra.
  - lia.
  - simpl. lra.
Defined.

Lemma main_loop_state_example :
  let s := {| display_type := "l"; last_page := 0; aww_go_on := true |} in
  let i := {| proximity := 2000; now_test := 1700000000;
              now_set := 1700000001; recording := [1; -1; 1; -1]%R |} in
  exists (s' : state) (screens : list screen),
    main_loop panel s [i] = Ok (s', screens) /\
    display_type s' = "n"%string /\
    s' = run_taps s (map readings [i]) /\
    length screens = 1%nat.
Proof.
  cbv zeta.
  destruct (linear_iteration_completes
              panel {| display_type := "l"; last_page := 0; aww_go_on := true |}
              {| proximity := 2000; now_test := 1700000000;
                 now_set := 1700000001; recording := [1; -1; 1; -1]%R |})
    as (bars & Hbody & _); [reflexivity |].
  eexists. eexists.
  assert (main_loop panel
            {| display_type := "l"; last_page := 0; aww_go_on := true |}
            [{| proximity := 2000; now_test := 1700000000;
                now_set := 1700000001; recording := [1; -1; 1; -1]%R |}]
          = Ok (mode_controller
                  {| display_type := "l"; last_page := 0; aww_go_on := true |}
                  2000 1700000000 1700000001,
                [Chart "Ampilitude RMS(A)" (58, 68, 238)%Z bars])) as Hrun.
  { cbn [main_loop aww_go_on]. cbn [proximity now_test now_set] in Hbody.
    rewrite Hbody. reflexivity. }
  split; [exact Hrun |]. split; [reflexivity |].
  apply (main_loop_state
           panel
           [{| proximity := 2000; now_test := 1700000000;
               now_set := 1700000001; recording := [1; -1; 1; -1]%R |}]
           {| display_type := "l"; last_page := 0; aww_go_on := true |}).
  - split; [right |]; reflexivity.
  - exact Hrun.
Defined.

Lemma get_amplitudes_shape_example :
  exists amps : list R,
    Noise.get_amplitudes_at_frequency_ranges
      {| Noise.sample_rate := 8; Noise.duration := 1 # 2 |} [1; 2; 3]%R
      [(1, 3); (2, 9)]%Z
    = Ok amps /\
    amps = map (band_amplitude
                  (magnitude_of
                     {| Noise.sample_rate := 8; Noise.duration := 1 # 2 |}
                     [1; 2; 3]%R))
               [(1, 3); (2, 9)]%Z /\
    length amps = 2%nat /\
    Forall (fun a => (0 <= a)%R) amps.
Proof.
  apply (get_amplitudes_shape
           {| Noise.sample_rate := 8; Noise.duration := 1 # 2 |}
           [1; 2; 3]%R [(1, 3); (2, 9)]%Z).
  - simpl. lia.
  - reflexivity.
Defined.

(** ** The layout of the bars *)

Section Layout.

Lemma heights_checked : forallb bar_height_checked heights = true.
Proof. vm_compute. reflexivity. Qed.

Lemma In_heights (h : Z) : (0 <= h <= 4096)%Z -> In h heights.
Proof.
  intros Hh. unfold heights.
  rewrite <- (Z2Nat.id h) by lia.
  apply in_map, in_seq. lia.
Qed.

(** X14.  For every display height up to 4096 pixels the bar height is a
    nearest integer to (height - 7) / 9.  From 30 pixels on, every bar has
    its top edge below the text margin and not under its bottom edge, and
    two rows lie between one bar and the next; from 58 pixels on the last
    bar ends inside the display. *)
Theorem bar_layout (disp : ST7735) :
  (0 <= height disp <= 4096)%Z ->
  exists bh : Z,
    bar_height disp = Ok bh /\
    (9 * bh - 4 <= height disp - 7 <= 9 * bh + 4)%Z /\
    ((30 <= height disp)%Z ->
       forall (i : Z) (v v' : R), (0 <= i)%Z ->
         (t_margin < top_y (bar_box bh i v) <= bot_y (bar_box bh i v))%Z /\
         (bot_y (bar_box bh i v) + 3 = top_y (bar_box bh (i + 1) v'))%Z) /\
    ((58 <= height disp)%Z ->
       forall v : R,
         (bot_y (bar_box bh (Z.of_nat no_of_measurements - 1) v)
          < height disp)%Z).
Proof.
  intros Hh.
  pose proof (proj1 (forallb_forall _ _) heights_checked
                _ (In_heights _ Hh)) as Hc.
  unfold bar_height_checked in Hc.
  change (bar_height {| width := 160; height := height disp |})
    with (bar_height disp) in Hc.
  destruct (bar_height disp) as [bh |]; [| discriminate].
  exists bh. split; [reflexivity |].
  unfold nearest_ninth in Hc.
  apply andb_prop in Hc as [H1 H2].
  apply Z.leb_le in H1, H2.
  split; [lia |]. split.
  - intros H30 i v v' Hi.
    unfold bar_box, t_margin, gap. cbn [top_y bot_y].
    assert (3 <= bh)%Z by lia. nia.
  - intros H58 v.
    unfold bar_box, t_margin, gap. cbn [top_y bot_y].
    change (Z.of_nat no_of_measurements) with 8%Z. lia.
Qed.

Lemma bar_layout_panel :
  exists bh : Z,
    bar_height panel = Ok bh /\
    (9 * bh - 4 <= height panel - 7 <= 9 * bh + 4)%Z /\
    ((30 <= height panel)%Z ->
       forall (i : Z) (v v' : R), (0 <= i)%Z ->
         (t_margin < top_y (bar_box bh i v) <= bot_y (bar_box bh i v))%Z /\
         (bot_y (bar_box bh i v) + 3 = top_y (bar_box bh (i + 1) v'))%Z) /\
    ((58 <= height panel)%Z ->
       forall v : R,
         (bot_y (bar_box bh (Z.of_nat no_of_measurements - 1) v)
          < height panel)%Z).
Proof.
  apply (bar_layout panel). simpl. lia.
Defined.

End Layout.

(** ** Bars and the right edge of the display *)

Section RightEdge.

Local Open Scope R_scope.

Variable disp : ST7735.

Lemma bar_value_linear_mono (s1 s2 : R) :
  (l_margin <= width disp)%Z ->
  s1 <= s2 -> bar_value_linear disp s1 <= bar_value_linear disp s2.
Proof.
  intros HW Hs. unfold bar_value_linear, max_spl.
  assert (0 <= IZR (width disp - l_margin)) as HW0 by (apply IZR_le; lia).
  apply round_ndigits_mono.
  apply Rmult_le_compat_l; [exact HW0 |].
  unfold Rdiv. apply Rmult_le_compat_r; lra.
Qed.

Lemma bar_value_linear_0 : bar_value_linear disp 0 = 0.
Proof.
  unfold bar_value_linear.
  replace (IZR (width disp - l_margin) * (0 / IZR max_spl)) with 0
    by (unfold Rdiv; ring).
  exact round_ndigits_0.
Qed.

Lemma bar_value_linear_max_spl :
  bar_value_linear disp (IZR max_spl) = IZR (width disp - l_margin).
Proof.
  unfold bar_value_linear, max_spl.
  replace (IZR (width disp - l_margin) * (450 / 450))
    with (IZR (width disp - l_margin)) by field.
  apply round_ndigits_IZR.
Qed.

(** X15.  On a display wider than the label margin a linear bar starts at
    the label margin; it ends on the display for amplitudes between 0 and
    [max_spl], and at or beyond the right edge for larger ones, since
    nothing clips it. *)
Theorem linear_bar_right_edge (bh i : Z) (s : R) :
  (l_margin < width disp)%Z ->
  let b := bar_box bh i (bar_value_linear disp s) in
  top_x b = l_margin /\
  (0 <= s <= IZR max_spl -> IZR (top_x b) <= bot_x b <= IZR (width disp)) /\
  (IZR max_spl <= s -> IZR (width disp) <= bot_x b).
Proof.
  intros HW. cbv zeta. unfold bar_box. cbn [top_x bot_x].
  split; [reflexivity |].
  assert (IZR (width disp) = IZR l_margin + IZR (width disp - l_margin)) as HWd
    by (rewrite minus_IZR; ring).
  assert (l_margin <= width disp)%Z as HW' by lia.
  split.
  - intros [Hs0 Hs1].
    pose proof (bar_value_linear_mono 0 s HW' Hs0) as H0.
    pose proof (bar_value_linear_mono s (IZR max_spl) HW' Hs1) as H1.
    rewrite bar_value_linear_0 in H0.
    rewrite bar_value_linear_max_spl in H1. lra.
  - intros Hs.
    pose proof (bar_value_linear_mono (IZR max_spl) s HW' Hs) as Hle.
    rewrite bar_value_linear_max_spl in Hle. lra.
Qed.

End RightEdge.

Lemma linear_bar_right_edge_panel :
  let b := bar_box 8 0 (bar_value_linear panel 900) in
  top_x b = l_margin /\
  ((0 <= 900 <= IZR max_spl)%R ->
     (IZR (top_x b) <= bot_x b <= IZR (width panel))%R) /\
  ((IZR max_spl <= 900)%R -> (IZR (width panel) <= bot_x b)%R).
Proof.
  apply (linear_bar_right_edge panel 8 0 900). reflexivity.
Defined.

(** ** Iterations without a tap *)

Section WithoutTaps.

Local Open Scope R_scope.

Variable disp : ST7735.

Lemma bar_height_nearest :
  (0 <= height disp <= 4096)%Z ->
  exists bh : Z,
    bar_height disp = Ok bh /\
    (9 * bh - 4 <= height disp - 7 <= 9 * bh + 4)%Z.
Proof.
  intros Hh.
  pose proof (proj1 (forallb_forall _ _) heights_checked
                _ (In_heights _ Hh)) as Hc.
  unfold bar_height_checked in Hc.
  change (bar_height {| width := 160; height := height disp |})
    with (bar_height disp) in Hc.
  destruct (bar_height disp) as [bh |]; [| discriminate].
  exists bh. split; [reflexivity |].
  unfold nearest_ninth in Hc.
  apply andb_prop in Hc as [H1 H2].
  apply Z.leb_le in H1, H2. lia.
Qed.

(** An iteration that ends up in the linear display type draws eight bars,
    none of negative width. *)
Lemma linear_iteration_bars (s : state) (i : input) :
  (l_margin <= width disp)%Z ->
  let s1 := mode_controller s (proximity i) (now_test i) (now_set i) in
  display_type s1 = "n"%string ->
  exists bars : list R,
    loop_body disp s i
    = Ok (s1, Chart "Ampilitude RMS(A)" (58, 68, 238)%Z bars) /\
    length bars = 8%nat /\
    Forall (fun v => 0 <= v) bars.
Proof.
  intros HW. cbv zeta. intros Hd. unfold loop_body.
  destruct (bands_amplitudes (recording i)) as (amps & Hamps & Hlen & Hpos).
  rewrite ranges_value. cbn [bind]. rewrite Hamps. cbn [bind].
  change no_of_measurements with 8%nat.
  rewrite weigh_spec by (rewrite ?Hlen; simpl; lia). cbn [bind].
  unfold chart. rewrite Hd.
  change (("n" =? "l")%string) with false.
  change (("n" =? "n")%string) with true. cbv iota.
  eexists. split; [reflexivity |]. split.
  - rewrite !length_map, length_seq. reflexivity.
  - apply Forall_forall. intros v Hv.
    apply in_map_iff in Hv as (w & <- & Hw).
    apply in_map_iff in Hw as (b & <- & _).
    apply Rle_trans with (bar_value_linear disp 0);
      [rewrite bar_value_linear_0; lra |].
    apply bar_value_linear_mono; [exact HW |].
    apply round_ndigits_nonneg, weighted_product_nonneg. exact Hpos.
Qed.

(** X12.  On a display at least as wide as the label margin and 30 to 4096
    pixels high, as long as no reading exceeds the proximity threshold the
    meter stays in the linear display type and, whatever the recorded
    blocks hold, every iteration computes eight bars without raising and
    hands [draw.rectangle] only boxes whose first corner is not right of
    or below the second. *)
Theorem main_loop_without_taps (inputs : list input) :
  (l_margin <= width disp)%Z ->
  (30 <= height disp <= 4096)%Z ->
  Forall (fun i => below_threshold (readings i)) inputs ->
  exists (bh : Z) (screens : list screen),
    bar_height disp = Ok bh /\
    main_loop disp initial inputs = Ok (initial, screens) /\
    length screens = length inputs /\
    Forall (fun scr => exists bars : list R,
                scr = Chart "Ampilitude RMS(A)" (58, 68, 238)%Z bars /\
                length bars = 8%nat /\
                forall k : nat, (k < 8)%nat ->
                  let b := bar_box bh (Z.of_nat k) (nth k bars 0) in
                  IZR (top_x b) <= bot_x b /\ (top_y b <= bot_y b)%Z)
           screens.
Proof.
  intros HW Hh Hquiet.
  destruct (bar_height_nearest ltac:(lia)) as (bh & Hbh & Hnear).
  exists bh.
  induction Hquiet as [| i inputs Hi _ (screens & _ & Hrun & Hlen & Hall)].
  - exists []. split; [exact Hbh |]. repeat split. constructor.
  - cbn [main_loop initial aww_go_on].
    assert (mode_controller initial (proximity i) (now_test i) (now_set i)
            = initial) as Hstay.
    { apply mode_controller_ignored.
      exact (below_threshold_ignored initial (readings i) Hi). }
    destruct (linear_iteration_bars initial i HW)
      as (bars & Hbody & Hbars & Hpos).
    { rewrite Hstay. reflexivity. }
    fold initial. rewrite Hbody, Hstay. cbn [bind fst snd].
    rewrite Hrun. cbn [bind fst snd].
    eexists. split; [exact Hbh |]. split; [reflexivity |]. split.
    + simpl. rewrite Hlen. reflexivity.
    + constructor; [| exact Hall].
      exists bars. split; [reflexivity |]. split; [exact Hbars |].
      intros k Hk. cbv zeta. unfold bar_box, t_margin, gap.
      cbn [top_x top_y bot_x bot_y]. split.
      * assert (0 <= nth k bars 0) as Hv.
        { apply (proj1 (Forall_forall _ bars) Hpos), nth_In. lia. }
        lra.
      * assert (3 <= bh)%Z by lia. nia.
Qed.

End WithoutTaps.

Lemma main_loop_without_taps_example :
  exists (bh : Z) (screens : list screen),
    bar_height panel = Ok bh /\
    main_loop panel initial
      [{| proximity := 1500; now_test := 1700000000; now_set := 1700000000;
          recording := [1; -1; 1; -1]%R |};
       {| proximity := 7; now_test := 1700000001; now_set := 1700000001;
          recording := [0.5; 0.25]%R |}]
    = Ok (initial, screens) /\
    length screens = 2%nat /\
    Forall (fun scr => exists bars : list R,
                scr = Chart "Ampilitude RMS(A)" (58, 68, 238)%Z bars /\
                length bars = 8%nat /\
                forall k : nat, (k < 8)%nat ->
                  let b := bar_box bh (Z.of_nat k) (nth k bars 0%R) in
                  (IZR (top_x b) <= bot_x b)%R /\ (top_y b <= bot_y b)%Z)
           screens.
Proof.
  apply (main_loop_without_taps
           panel
           [{| proximity := 1500; now_test := 1700000000;
               now_set := 1700000000; recording := [1; -1; 1; -1]%R |};
            {| proximity := 7; now_test := 1700000001;
               now_set := 1700000001; recording := [0.5; 0.25]%R |}]).
  - unfold l_margin, panel. simpl. lia.
  - unfold panel. simpl. lia.
  - repeat constructor; unfold below_threshold, readings; simpl; lia.
Defined.
